(** * Metadata enrichment and lyrics resolution of the media-catalog backend

    A shallow embedding of [songs/lyrics.py] and of the song views of
    [songs/views.py], and the properties of the enrichment layer proved
    about it.

    Conventions of the embedding:
    - a Python [str] is a [string] whose characters are the code points
      below 256;
    - a value decoded from a JSON body is a [json];
    - a Python call that may raise is a computation in [res] (pure code) or
      in [M] (code that reads or writes the catalog, the cache, or talks to
      an external service); [try_except] is [try: ... except Exception:];
    - logging is dropped, except where building the logged text can raise. *)

From Stdlib Require Import Ascii String NArith ZArith QArith Qround Lqa.
From stdpp Require Import base option list strings pretty gmap fin_maps sorting.

Local Open Scope string_scope.
Local Open Scope Z_scope.

(** ** Python exceptions *)

Inductive exn : Type :=
| AttributeError | TypeError | KeyError | IndexError | ValueError
| UnicodeEncodeError | OSError
| Timeout | RequestException
| DoesNotExist.

Inductive res (A : Type) : Type :=
| Ok (a : A)
| Raise (e : exn).
Arguments Ok {A} a.
Arguments Raise {A} e.

Definition res_bind {A B} (r : res A) (k : A -> res B) : res B :=
  match r with
  | Ok a => k a
  | Raise e => Raise e
  end.

(** [try: body except Exception: handler] for pure code. *)
Definition res_try {A} (body : res A) (handler : exn -> res A) : res A :=
  match body with
  | Ok a => Ok a
  | Raise e => handler e
  end.

(** ** Python string operations *)

Module PyStr.

Definition code (c : ascii) : N := N_of_ascii c.

(** [str.isspace] on one character (code points below 256). *)
Definition isspace (c : ascii) : bool :=
  let n := code c in
  (((9 <=? n) && (n <=? 13)) || ((28 <=? n) && (n <=? 32))
   || (n =? 133) || (n =? 160))%N.

(** Line boundaries of [str.splitlines] other than the pair CR LF. *)
Definition islinebreak (c : ascii) : bool :=
  let n := code c in
  (((10 <=? n) && (n <=? 13)) || ((28 <=? n) && (n <=? 30)) || (n =? 133))%N.

Definition lower_char (c : ascii) : ascii :=
  let n := code c in
  if (((65 <=? n) && (n <=? 90))
      || ((192 <=? n) && (n <=? 222) && negb (n =? 215)))%N
  then ascii_of_N (n + 32) else c.

Fixpoint lower (s : string) : string :=
  match s with
  | EmptyString => EmptyString
  | String c s' => String (lower_char c) (lower s')
  end.

Fixpoint lstrip (s : string) : string :=
  match s with
  | EmptyString => EmptyString
  | String c s' => if isspace c then lstrip s' else s
  end.

Fixpoint rstrip (s : string) : string :=
  match s with
  | EmptyString => EmptyString
  | String c s' =>
      match rstrip s' with
      | EmptyString => if isspace c then EmptyString else String c EmptyString
      | r => String c r
      end
  end.

Definition strip (s : string) : string := rstrip (lstrip s).

Definition is_empty (s : string) : bool :=
  match s with EmptyString => true | _ => false end.

(** [s.startswith(c)] for a one-character prefix. *)
Definition startswith_char (c : ascii) (s : string) : bool :=
  match s with
  | String c' _ => Ascii.eqb c' c
  | EmptyString => false
  end.

(** [c in s] for a one-character needle. *)
Fixpoint contains (c : ascii) (s : string) : bool :=
  match s with
  | EmptyString => false
  | String c' s' => Ascii.eqb c' c || contains c s'
  end.

(** [s.split(c, 1)] when [c] occurs in [s]: the text before the first
    occurrence and the text after it.  Without an occurrence Python
    returns the one-element list [[s]]; the callers test [c in s] first,
    and here the second component is then empty. *)
Fixpoint split1 (c : ascii) (s : string) : string * string :=
  match s with
  | EmptyString => (EmptyString, EmptyString)
  | String c' s' =>
      if Ascii.eqb c' c then (EmptyString, s')
      else let '(k, v) := split1 c s' in (String c' k, v)
  end.

(** [str.splitlines()]: [cur] is the line being read. *)
Fixpoint splitlines_go (cur : string) (s : string) : list string :=
  match s with
  | EmptyString => if is_empty cur then [] else [cur]
  | String c s' =>
      if (code c =? 13)%N then
        match s' with
        | String c2 s'' =>
            if (code c2 =? 10)%N then cur :: splitlines_go EmptyString s''
            else cur :: splitlines_go EmptyString s'
        | EmptyString => cur :: splitlines_go EmptyString s'
        end
      else if islinebreak c then cur :: splitlines_go EmptyString s'
      else splitlines_go (cur +:+ String c EmptyString) s'
  end.

Definition splitlines (s : string) : list string := splitlines_go EmptyString s.

(** [s.encode('ascii')] succeeds exactly on code points below 128. *)
Fixpoint is_ascii (s : string) : bool :=
  match s with
  | EmptyString => true
  | String c s' => (code c <? 128)%N && is_ascii s'
  end.

(** [sep.join(parts)] on strings. *)
Fixpoint join (sep : string) (parts : list string) : string :=
  match parts with
  | [] => EmptyString
  | [p] => p
  | p :: ps => p +:+ sep +:+ join sep ps
  end.

End PyStr.

(** ** Credential store: [LyricsService._load_spotify_credentials] *)

(** What the process finds at [BASE_DIR/apis/spotify.txt]: nothing
    ([os.path.exists] is false), a path that [open]/[read] fails on, or a
    text. *)
Inductive resource : Type :=
| Absent
| Unreadable
| Content (text : string).

Definition required_keys : list string := ["client_id"; "client_secret"].

(** [not line.strip() or line.strip().startswith("#")]. *)
Definition is_skipped (line : string) : bool :=
  PyStr.is_empty (PyStr.strip line)
  || PyStr.startswith_char "#" (PyStr.strip line).

(** One turn of the [for line in lines] loop.  The colon is tested before
    the equals sign, as in the source. *)
Definition parse_line (credentials : gmap string string) (line : string)
  : gmap string string :=
  if is_skipped line then credentials
  else if PyStr.contains ":" line then
    let '(key, value) := PyStr.split1 ":" line in
    <[PyStr.lower (PyStr.strip key) := PyStr.strip value]> credentials
  else if PyStr.contains "=" line then
    let '(key, value) := PyStr.split1 "=" line in
    <[PyStr.lower (PyStr.strip key) := PyStr.strip value]> credentials
  else credentials.

Definition parse_lines (lines : list string) : gmap string string :=
  fold_left parse_line lines ∅.

(** [open(...).read()]: raises on an unreadable path. *)
Definition read_file (r : resource) : res string :=
  match r with
  | Content text => Ok text
  | _ => Raise OSError
  end.

Definition exists_file (r : resource) : bool :=
  match r with Absent => false | _ => true end.

Definition _load_spotify_credentials (spotify_txt : resource)
  : res (option (gmap string string)) :=
  res_try
    (if negb (exists_file spotify_txt) then Ok None
     else
       res_bind (read_file spotify_txt) (fun text =>
       let lines := PyStr.splitlines (PyStr.strip text) in
       let credentials := parse_lines lines in
       let missing :=
         filter (fun key => credentials !! key = None) required_keys in
       match missing with
       | _ :: _ => Ok None
       | [] => Ok (Some credentials)
       end))
    (fun _ => Ok None).

(** ** Values decoded from JSON bodies *)

(** What [response.json()] can return: [None], a bool, an int, a (finite)
    float, a str, a list or a dict.  A dict is kept as its items; [assoc]
    reads the first item with the key. *)
#[warnings="-register-all"]
Inductive json : Type :=
| JNull
| JBool (b : bool)
| JInt (n : Z)
| JFloat (q : Q)
| JStr (s : string)
| JList (l : list json)
| JDict (d : list (string * json)).

Module Py.

Fixpoint assoc (k : string) (d : list (string * json)) : option json :=
  match d with
  | [] => None
  | (k', v) :: d' => if String.eqb k' k then Some v else assoc k d'
  end.

(** Truth value of a decoded value, as tested by [if v:] and [not v]. *)
Definition truthy (v : json) : bool :=
  match v with
  | JNull => false
  | JBool b => b
  | JInt n => negb (n =? 0)
  | JFloat q => negb (Qeq_bool q 0)
  | JStr s => negb (PyStr.is_empty s)
  | JList l => match l with [] => false | _ => true end
  | JDict d => match d with [] => false | _ => true end
  end.

Definition is_dict (v : json) : bool :=
  match v with JDict _ => true | _ => false end.

(** [v.get(k, default)]: only a dict has [get]. *)
Definition get (v : json) (k : string) (default : json) : res json :=
  match v with
  | JDict d => Ok (match assoc k d with Some x => x | None => default end)
  | _ => Raise AttributeError
  end.

(** [len(v)]. *)
Definition len (v : json) : res Z :=
  match v with
  | JStr s => Ok (Z.of_nat (String.length s))
  | JList l => Ok (Z.of_nat (length l))
  | JDict d => Ok (Z.of_nat (length d))
  | _ => Raise TypeError
  end.

(** [v[0]].  The keys of a decoded dict are strings, so [0] is never one
    of them. *)
Definition item0 (v : json) : res json :=
  match v with
  | JList (x :: _) => Ok x
  | JList [] => Raise IndexError
  | JStr (String c _) => Ok (JStr (String c EmptyString))
  | JStr EmptyString => Raise IndexError
  | JDict _ => Raise KeyError
  | _ => Raise TypeError
  end.

(** [v[k]] for a string key [k]. *)
Definition item (v : json) (k : string) : res json :=
  match v with
  | JDict d => match assoc k d with Some x => Ok x | None => Raise KeyError end
  | _ => Raise TypeError
  end.

Fixpoint chars (s : string) : list json :=
  match s with
  | EmptyString => []
  | String c s' => JStr (String c EmptyString) :: chars s'
  end.

(** The elements [for x in v] runs over. *)
Definition iter (v : json) : res (list json) :=
  match v with
  | JList l => Ok l
  | JStr s => Ok (chars s)
  | JDict d => Ok (map (fun kv => JStr (fst kv)) d)
  | _ => Raise TypeError
  end.

(** [v - n] for an int [n]; a bool counts as 0 or 1. *)
Definition minus (v : json) (n : Z) : res Q :=
  match v with
  | JInt m => Ok (inject_Z (m - n))
  | JBool b => Ok (inject_Z ((if b then 1 else 0) - n))
  | JFloat q => Ok (q - inject_Z n)%Q
  | _ => Raise TypeError
  end.

Definition is_str (v : json) : bool :=
  match v with JStr _ => true | _ => false end.

(** [sep.join(l)]: every element has to be a str. *)
Fixpoint strs (l : list json) : res (list string) :=
  match l with
  | [] => Ok []
  | JStr s :: l' => res_bind (strs l') (fun ss => Ok (s :: ss))
  | _ :: _ => Raise TypeError
  end.

Definition join (sep : string) (l : list json) : res string :=
  res_bind (strs l) (fun ss => Ok (PyStr.join sep ss)).

End Py.

(** ** The catalog, the cache and the external services *)

Record Artist : Type := { artist_id : Z; artist_name : string }.

Record Album : Type :=
  { album_id : Z; album_title : string; release_date : option string }.

(** A song record.  [lyrics] and [spotify_track_id] are not declared by
    [songs/models.py]; [lyrics.py], [artists/artist_songs.py] and
    [songs/sync_spotify_dat.py] read and write them.  [lyrics] is a
    nullable text; [spotify_track_id] is [None] when the model has no such
    attribute ([hasattr] is false) and [Some v] when it has one, holding
    [v].  [created_at] and [release_date] are kept in ISO format. *)
Record Song : Type := {
  song_id : Z;
  title : string;
  artist : Artist;
  album : option Album;
  duration : Z;
  total_streams : Z;
  created_at : string;
  lyrics : option string;
  spotify_track_id : option json
}.

(** The dict [get_lyrics] returns; a key that a dict does not have is
    [None] here, as is a key bound to [None]. *)
Record LyricsResult : Type := {
  success : bool;
  error : option string;
  r_lyrics : option string;
  source : option string;
  song_title : option string;
  r_artist : option string;
  has_lyrics : bool;
  message : option string
}.

Inductive request : Type :=
| TokenPost (auth_string : string)
| SearchGet (access_token : json) (q : string)
| AudioFeaturesGet (access_token : json) (spotify_id : json)
| GeniusSearchGet (api_key : json) (q : string).

(** What a [requests] call does: it raises [Timeout] or another
    [RequestException], or returns a response with a status code and a
    body, [None] when the body is not JSON. *)
Inductive outcome : Type :=
| NetTimeout
| NetError
| Response (status_code : Z) (body : option json).

(** Django's cache: an entry is a value and the time it expires at; the key
    ['spotify_access_token'] has a slot of its own and the keys
    [f"lyrics_{song_id}"] are indexed by the song id. *)
Record cache_store : Type := {
  token_entry : option (json * Q);
  lyrics_entries : gmap Z (LyricsResult * Q)
}.

(** Everything outside the service instance.  [calls] is the log of the
    external requests made so far; [net] answers a request given that log.
    [now] is the clock, in seconds. *)
Record world : Type := {
  catalog : list Song;
  cache : cache_store;
  now : Q;
  calls : list request;
  net : list request -> request -> outcome;
  spotify_txt : resource;
  GENIUS_API_KEY : json
}.

Definition set_catalog (c : list Song) (w : world) : world :=
  {| catalog := c; cache := cache w; now := now w; calls := calls w;
     net := net w; spotify_txt := spotify_txt w;
     GENIUS_API_KEY := GENIUS_API_KEY w |}.

Definition set_cache (c : cache_store) (w : world) : world :=
  {| catalog := catalog w; cache := c; now := now w; calls := calls w;
     net := net w; spotify_txt := spotify_txt w;
     GENIUS_API_KEY := GENIUS_API_KEY w |}.

Definition set_calls (l : list request) (w : world) : world :=
  {| catalog := catalog w; cache := cache w; now := now w; calls := l;
     net := net w; spotify_txt := spotify_txt w;
     GENIUS_API_KEY := GENIUS_API_KEY w |}.

(** [dt] seconds pass. *)
Definition advance (dt : Q) (w : world) : world :=
  {| catalog := catalog w; cache := cache w; now := (now w + dt)%Q;
     calls := calls w; net := net w; spotify_txt := spotify_txt w;
     GENIUS_API_KEY := GENIUS_API_KEY w |}.

(** ** Computations *)

Definition M (A : Type) : Type := world -> res A * world.

Definition ret {A} (a : A) : M A := fun w => (Ok a, w).

Definition bind {A B} (c : M A) (k : A -> M B) : M B :=
  fun w =>
    match c w with
    | (Ok a, w') => k a w'
    | (Raise e, w') => (Raise e, w')
    end.

Definition raise {A} (e : exn) : M A := fun w => (Raise e, w).

Definition lift {A} (r : res A) : M A := fun w => (r, w).

(** [try: body except Exception: handler]; what [body] did to the world
    before it raised stays done. *)
Definition try_except {A} (body : M A) (handler : exn -> M A) : M A :=
  fun w =>
    match body w with
    | (Ok a, w') => (Ok a, w')
    | (Raise e, w') => handler e w'
    end.

Notation "x <-- c ;; k" := (bind c (fun x => k))
  (at level 100, c at next level, right associativity).
Notation "c ;;; k" := (bind c (fun _ => k))
  (at level 100, right associativity).

(** *** Cache operations *)

(** An entry is served while the clock is before its expiry. *)
Definition live {A} (t : Q) (e : A * Q) : option A :=
  if Qle_bool (snd e) t then None else Some (fst e).

(** [cache.get('spotify_access_token')]; a miss is [None]. *)
Definition cache_get_token : M json :=
  fun w =>
    (Ok (match token_entry (cache w) ≫= live (now w) with
         | Some v => v
         | None => JNull
         end), w).

(** [cache.set('spotify_access_token', v, timeout)]. *)
Definition cache_set_token (v : json) (timeout : Q) : M unit :=
  fun w =>
    (Ok tt,
     set_cache {| token_entry := Some (v, (now w + timeout)%Q);
                  lyrics_entries := lyrics_entries (cache w) |} w).

(** [cache.get(f"lyrics_{sid}")]. *)
Definition cache_get_lyrics (sid : Z) : M (option LyricsResult) :=
  fun w => (Ok (lyrics_entries (cache w) !! sid ≫= live (now w)), w).

(** [cache.set(f"lyrics_{sid}", r, timeout)]. *)
Definition cache_set_lyrics (sid : Z) (r : LyricsResult) (timeout : Q) : M unit :=
  fun w =>
    (Ok tt,
     set_cache {| token_entry := token_entry (cache w);
                  lyrics_entries :=
                    <[sid := (r, (now w + timeout)%Q)]> (lyrics_entries (cache w)) |} w).

(** [cache.delete(f"lyrics_{sid}")]. *)
Definition cache_delete_lyrics (sid : Z) : M unit :=
  fun w =>
    (Ok tt,
     set_cache {| token_entry := token_entry (cache w);
                  lyrics_entries := delete sid (lyrics_entries (cache w)) |} w).

(** *** Catalog operations *)

(** [Song.objects.get(id=sid)]. *)
Definition objects_get (sid : Z) : M Song :=
  fun w =>
    match find (fun s => song_id s =? sid) (catalog w) with
    | Some s => (Ok s, w)
    | None => (Raise DoesNotExist, w)
    end.

(** [Song.objects.all()]. *)
Definition objects_all : M (list Song) := fun w => (Ok (catalog w), w).

(** [song.save()]: the row with the song's id takes the object's fields. *)
Definition save (song : Song) : M unit :=
  fun w =>
    (Ok tt,
     set_catalog
       (map (fun s => if song_id s =? song_id song then song else s) (catalog w))
       w).

(** *** External requests *)

(** [requests.get] / [requests.post]: the request is logged and answered. *)
Definition send (req : request) : M (Z * option json) :=
  fun w =>
    let w' := set_calls (calls w ++ [req]) w in
    match net w (calls w) req with
    | NetTimeout => (Raise Timeout, w')
    | NetError => (Raise RequestException, w')
    | Response st b => (Ok (st, b), w')
    end.

(** [response.json()]. *)
Definition response_json (b : option json) : res json :=
  match b with
  | Some v => Ok v
  | None => Raise ValueError
  end.

(** ** The service: [LyricsService] *)

Record LyricsService : Type := {
  genius_api_key : json;
  spotify_credentials : option (gmap string string)
}.

(** [LyricsService()]: the constructor reads the setting and the
    credentials file. *)
Definition LyricsService_init : M LyricsService :=
  fun w =>
    match _load_spotify_credentials (spotify_txt w) with
    | Ok c => (Ok {| genius_api_key := GENIUS_API_KEY w;
                     spotify_credentials := c |}, w)
    | Raise e => (Raise e, w)
    end.

(** [if not self.spotify_credentials]: [None] and the empty dict are false. *)
Definition credentials_truthy (c : option (gmap string string)) : bool :=
  match c with
  | Some m => negb (bool_decide (m = ∅))
  | None => false
  end.

(** [credentials[k]]. *)
Definition credentials_item (c : option (gmap string string)) (k : string)
  : res string :=
  match c with
  | Some m => match m !! k with Some v => Ok v | None => Raise KeyError end
  | None => Raise TypeError
  end.

(** The token request of the client-credentials grant: the Basic
    authorization header carries the base64 text of [auth_string], which
    has to encode as ASCII. *)
Definition token_request (self : LyricsService) : res request :=
  res_bind (credentials_item (spotify_credentials self) "client_id") (fun client_id =>
  res_bind (credentials_item (spotify_credentials self) "client_secret") (fun client_secret =>
  let auth_string := client_id +:+ ":" +:+ client_secret in
  if PyStr.is_ascii auth_string then Ok (TokenPost auth_string)
  else Raise UnicodeEncodeError)).

(** [LyricsService._get_spotify_access_token]; the result [JNull] is
    Python's [None]. *)
Definition _get_spotify_access_token (self : LyricsService) : M json :=
  if negb (credentials_truthy (spotify_credentials self)) then ret JNull
  else
    cached_token <-- cache_get_token ;;
    if Py.truthy cached_token then ret cached_token
    else
      try_except
        (req <-- lift (token_request self) ;;
         response <-- send req ;;
         let '(status_code, body) := response in
         if status_code =? 200 then
           token_data <-- lift (response_json body) ;;
           access_token <-- lift (Py.get token_data "access_token" JNull) ;;
           expires_in <-- lift (Py.get token_data "expires_in" (JInt 3600)) ;;
           timeout <-- lift (Py.minus expires_in 60) ;;
           cache_set_token access_token timeout ;;;
           ret access_token
         else ret JNull)
        (fun _ => ret JNull).

(** The dict [_get_spotify_track_info] builds; [ti_audio_features] is
    the key [_get_comprehensive_spotify_data] may add. *)
Record TrackInfo : Type := {
  ti_spotify_id : json;
  ti_name : json;
  ti_artists : list json;
  ti_album : json;
  ti_preview_url : json;
  ti_external_urls : json;
  ti_duration_ms : json;
  ti_popularity : json;
  ti_audio_features : option (list (string * json))
}.

Definition search_query (song : Song) : string :=
  "track:" +:+ title song +:+ " artist:" +:+ artist_name (artist song).

(** [[artist.get('name', '') for artist in l if isinstance(artist, dict)]]. *)
Fixpoint artist_names (l : list json) : res (list json) :=
  match l with
  | [] => Ok []
  | a :: l' =>
      if Py.is_dict a then
        res_bind (Py.get a "name" (JStr "")) (fun n =>
        res_bind (artist_names l') (fun ns => Ok (n :: ns)))
      else artist_names l'
  end.

(** The dict display that builds [track_info] from the first track. *)
Definition extract_track_info (track : json) : res TrackInfo :=
  res_bind (Py.get track "id" (JStr "")) (fun spotify_id =>
  res_bind (Py.get track "name" (JStr "")) (fun name =>
  res_bind (Py.get track "artists" (JList [])) (fun artists_raw =>
  res_bind (Py.iter artists_raw) (fun artists_seq =>
  res_bind (artist_names artists_seq) (fun artists =>
  res_bind (Py.get track "album" JNull) (fun album_raw =>
  res_bind (if Py.is_dict album_raw
            then res_bind (Py.get track "album" (JDict [])) (fun a =>
                 Py.get a "name" (JStr ""))
            else Ok (JStr "")) (fun album =>
  res_bind (Py.get track "preview_url" JNull) (fun preview_url =>
  res_bind (Py.get track "external_urls" (JDict [])) (fun external_urls =>
  res_bind (Py.get track "duration_ms" JNull) (fun duration_ms =>
  res_bind (Py.get track "popularity" JNull) (fun popularity =>
  Ok {| ti_spotify_id := spotify_id; ti_name := name; ti_artists := artists;
        ti_album := album; ti_preview_url := preview_url;
        ti_external_urls := external_urls; ti_duration_ms := duration_ms;
        ti_popularity := popularity; ti_audio_features := None |}))))))))))).

(** What follows [data = response.json()] in the search: the first item
    of [data['tracks']['items']], read defensively. *)
Definition first_track (data : json) : res (option TrackInfo) :=
  res_bind (Py.get data "tracks" (JDict [])) (fun tracks_obj =>
  res_bind (Py.get tracks_obj "items" (JList [])) (fun tracks =>
  res_bind (if Py.truthy tracks
            then res_bind (Py.len tracks) (fun n => Ok (0 <? n))
            else Ok false) (fun nonempty =>
  if nonempty then
    res_bind (Py.item0 tracks) (fun track =>
    if negb (Py.is_dict track) then Ok None
    else
      res_try
        (res_bind (extract_track_info track) (fun track_info => Ok (Some track_info)))
        (fun _ => Ok None))
  else Ok None))).

(** [LyricsService._get_spotify_track_info]. *)
Definition _get_spotify_track_info (self : LyricsService) (song : Song)
  : M (option TrackInfo) :=
  access_token <-- _get_spotify_access_token self ;;
  if negb (Py.truthy access_token) then ret None
  else
    try_except
      (response <-- send (SearchGet access_token (search_query song)) ;;
       let '(status_code, body) := response in
       if status_code =? 200 then
         match response_json body with
         | Raise _ => ret None
         | Ok data => lift (first_track data)
         end
       else ret None)
      (fun _ => ret None).

Definition audio_feature_names : list string :=
  ["danceability"; "energy"; "key"; "loudness"; "mode"; "speechiness";
   "acousticness"; "instrumentalness"; "liveness"; "valence"; "tempo";
   "duration_ms"; "time_signature"].

(** The dict stored under ['audio_features']: [features_data.get(k)] for
    each of the thirteen names; [features_data] is a dict here. *)
Definition extract_audio_features (features_data : json) : list (string * json) :=
  map (fun k =>
         (k, match Py.get features_data k JNull with Ok v => v | Raise _ => JNull end))
      audio_feature_names.

Definition with_audio_features (t : TrackInfo) (f : list (string * json))
  : TrackInfo :=
  {| ti_spotify_id := ti_spotify_id t; ti_name := ti_name t;
     ti_artists := ti_artists t; ti_album := ti_album t;
     ti_preview_url := ti_preview_url t;
     ti_external_urls := ti_external_urls t;
     ti_duration_ms := ti_duration_ms t; ti_popularity := ti_popularity t;
     ti_audio_features := Some f |}.

(** [LyricsService._get_comprehensive_spotify_data]. *)
Definition _get_comprehensive_spotify_data (self : LyricsService) (song : Song)
  : M (option TrackInfo) :=
  found <-- _get_spotify_track_info self song ;;
  match found with
  | None => ret None
  | Some track_info =>
      let spotify_id := ti_spotify_id track_info in
      if negb (Py.truthy spotify_id) then ret (Some track_info)
      else
        access_token <-- _get_spotify_access_token self ;;
        if negb (Py.truthy access_token) then ret (Some track_info)
        else
          try_except
            (features_response <-- send (AudioFeaturesGet access_token spotify_id) ;;
             let '(status_code, body) := features_response in
             if status_code =? 200 then
               match response_json body with
               | Raise _ => ret (Some track_info)
               | Ok features_data =>
                   if negb (Py.is_dict features_data) then ret (Some track_info)
                   else ret (Some (with_audio_features track_info
                                     (extract_audio_features features_data)))
               end
             else ret (Some track_info))
            (fun _ => ret (Some track_info))
  end.

(** ** Lyrics resolution *)

(** Truth value of an [Optional[str]]. *)
Definition str_truthy (o : option string) : bool :=
  match o with
  | Some s => negb (PyStr.is_empty s)
  | None => false
  end.

(** [song.lyrics and song.lyrics.strip()]. *)
Definition has_stored_lyrics (song : Song) : bool :=
  match lyrics song with
  | Some l => negb (PyStr.is_empty l) && negb (PyStr.is_empty (PyStr.strip l))
  | None => false
  end.

Definition set_lyrics (l : option string) (song : Song) : Song :=
  {| song_id := song_id song; title := title song; artist := artist song;
     album := album song; duration := duration song;
     total_streams := total_streams song; created_at := created_at song;
     lyrics := l; spotify_track_id := spotify_track_id song |}.

Definition set_spotify_track_id (v : json) (song : Song) : Song :=
  {| song_id := song_id song; title := title song; artist := artist song;
     album := album song; duration := duration song;
     total_streams := total_streams song; created_at := created_at song;
     lyrics := lyrics song; spotify_track_id := Some v |}.

(** [LyricsService._scrape_genius_lyrics]. *)
Definition _scrape_genius_lyrics (url : json) : option string := None.

(** [LyricsService._get_genius_lyrics]. *)
Definition _get_genius_lyrics (self : LyricsService) (song : Song)
  : M (option string) :=
  try_except
    (response <--
       send (GeniusSearchGet (genius_api_key self)
               (title song +:+ " " +:+ artist_name (artist song))) ;;
     let '(status_code, body) := response in
     if status_code =? 200 then
       data <-- lift (response_json body) ;;
       response_obj <-- lift (Py.get data "response" (JDict [])) ;;
       hits <-- lift (Py.get response_obj "hits" (JList [])) ;;
       if Py.truthy hits then
         hit <-- lift (Py.item0 hits) ;;
         song_data <-- lift (Py.item hit "result") ;;
         lyrics_url <-- lift (Py.get song_data "url" JNull) ;;
         if Py.truthy lyrics_url then ret (_scrape_genius_lyrics lyrics_url)
         else ret None
       else ret None
     else ret None)
    (fun _ => ret None).

(** [LyricsService._get_external_lyrics]. *)
Definition _get_external_lyrics (self : LyricsService) (song : Song)
  : M (option string) :=
  if Py.truthy (genius_api_key self) then
    genius_lyrics <-- _get_genius_lyrics self song ;;
    if str_truthy genius_lyrics then ret genius_lyrics else ret None
  else ret None.

(** [LyricsService._get_spotify_lyrics].  The song object is mutable in
    the source; here the function returns it next to its result.  The text
    of the last log line is built with [', '.join], which raises on a name
    that is not a str. *)
Definition _get_spotify_lyrics (self : LyricsService) (song : Song)
  : M (Song * option string) :=
  spotify_info <-- _get_spotify_track_info self song ;;
  match spotify_info with
  | Some info =>
      song' <--
        (match spotify_track_id song with
         | Some _ =>
             let song' := set_spotify_track_id (ti_spotify_id info) song in
             save song' ;;; ret song'
         | None => ret song
         end) ;;
      _ <-- lift (Py.join ", " (ti_artists info)) ;;
      ret (song', None)
  | None => ret (song, None)
  end.

Definition found_response (song : Song) (text : string) (src : string)
  : LyricsResult :=
  {| success := true; error := None; r_lyrics := Some text;
     source := Some src; song_title := Some (title song);
     r_artist := Some (artist_name (artist song)); has_lyrics := true;
     message := None |}.

Definition not_available_response (song : Song) : LyricsResult :=
  {| success := true; error := None; r_lyrics := None; source := None;
     song_title := Some (title song);
     r_artist := Some (artist_name (artist song)); has_lyrics := false;
     message := Some "Lyrics not available for this song" |}.

(** [LyricsService._error_response]. *)
Definition _error_response (msg : string) : LyricsResult :=
  {| success := false; error := Some msg; r_lyrics := None; source := None;
     song_title := None; r_artist := None; has_lyrics := false;
     message := None |}.

(** [LyricsService._get_lyrics_from_sources]. *)
Definition _get_lyrics_from_sources (self : LyricsService) (song : Song)
  : M LyricsResult :=
  if has_stored_lyrics song then
    ret (found_response song (default "" (lyrics song)) "database")
  else
    r <-- _get_spotify_lyrics self song ;;
    let '(song, spotify_lyrics) := r in
    if str_truthy spotify_lyrics then
      let song := set_lyrics spotify_lyrics song in
      save song ;;;
      ret (found_response song (default "" spotify_lyrics) "spotify")
    else
      external_lyrics <-- _get_external_lyrics self song ;;
      if str_truthy external_lyrics then
        let song := set_lyrics external_lyrics song in
        save song ;;;
        ret (found_response song (default "" external_lyrics) "external_api")
      else ret (not_available_response song).

(** The lyrics entries live for 24 hours. *)
Definition lyrics_ttl : Q := inject_Z (60 * 60 * 24).

(** [LyricsService.get_lyrics]. *)
Definition get_lyrics (self : LyricsService) (sid : Z) : M LyricsResult :=
  fun w =>
    match objects_get sid w with
    | (Raise DoesNotExist, w') => (Ok (_error_response "Song not found"), w')
    | (Raise e, w') => (Raise e, w')
    | (Ok song, w') =>
        (cached_lyrics <-- cache_get_lyrics sid ;;
         match cached_lyrics with
         | Some r => ret r
         | None =>
             lyrics_data <-- _get_lyrics_from_sources self song ;;
             cache_set_lyrics sid lyrics_data lyrics_ttl ;;;
             ret lyrics_data
         end) w'
    end.

(** [get_song_lyrics]. *)
Definition get_song_lyrics (sid : Z) : M LyricsResult :=
  service <-- LyricsService_init ;;
  get_lyrics service sid.

(** [refresh_lyrics_cache]. *)
Definition refresh_lyrics_cache (sid : Z) : M LyricsResult :=
  cache_delete_lyrics sid ;;;
  service <-- LyricsService_init ;;
  get_lyrics service sid.

(** ** The song views *)

Inductive http_method : Type := GET | POST | OTHER.

(** The dict the list view stores under ['spotify_data']. *)
Record SpotifyData : Type := {
  sd_spotify_id : json;
  sd_preview_url : json;
  sd_external_url : json;
  sd_popularity : json;
  sd_album_image : json;
  sd_duration_ms : json;
  sd_audio_features : list (string * json)
}.

(** One element of the ['songs'] list.  [si_duration_formatted] keeps the
    minutes and the seconds that the model's property prints. *)
Record SongInfo : Type := {
  si_id : Z;
  si_title : string;
  si_duration : Z;
  si_duration_formatted : Z * Z;
  si_artist : Z * string;
  si_streams : Z;
  si_created_at : string;
  si_album : option (Z * string * option string);
  si_spotify_data : option SpotifyData
}.

Inductive body : Type :=
| ErrorBody (msg : string)
| FailureBody (exception : exn)
| LyricsBody (r : LyricsResult)
| SongsBody (songs : list SongInfo).

Record JsonResponse : Type := { status : Z; content : body }.

(** Steps 4 and 5 of the list view: the catalog fields of one record. *)
Definition song_info_of (song : Song) (sd : option SpotifyData) : SongInfo :=
  {| si_id := song_id song;
     si_title := title song;
     si_duration := duration song;
     si_duration_formatted := (duration song / 60, duration song mod 60);
     si_artist := (artist_id (artist song), artist_name (artist song));
     si_streams := total_streams song;
     si_created_at := created_at song;
     si_album :=
       match album song with
       | Some a => Some (album_id a, album_title a, release_date a)
       | None => None
       end;
     si_spotify_data := sd |}.

(** The body of the [if spotify_info and isinstance(spotify_info, dict)]
    branch of the list view. *)
Definition extract_spotify_data (spotify_info : TrackInfo) : res SpotifyData :=
  res_bind (if Py.is_dict (ti_external_urls spotify_info)
            then Py.get (ti_external_urls spotify_info) "spotify" JNull
            else Ok JNull) (fun external_url =>
  let album_data := ti_album spotify_info in
  res_bind (if Py.is_dict album_data then
              res_bind (Py.get album_data "images" (JList [])) (fun images =>
              res_bind (if Py.truthy images
                        then res_bind (Py.len images) (fun n => Ok (0 <? n))
                        else Ok false) (fun nonempty =>
              if nonempty then
                res_bind (Py.item0 images) (fun image => Py.get image "url" JNull)
              else Ok JNull))
            else Ok JNull) (fun album_image =>
  Ok {| sd_spotify_id := ti_spotify_id spotify_info;
        sd_preview_url := ti_preview_url spotify_info;
        sd_external_url := external_url;
        sd_popularity := ti_popularity spotify_info;
        sd_album_image := album_image;
        sd_duration_ms := ti_duration_ms spotify_info;
        sd_audio_features := default [] (ti_audio_features spotify_info) |})).

(** Step 6 of the list view: the [try] block that enriches one record. *)
Definition enrich (service : LyricsService) (song : Song)
  : M (option SpotifyData) :=
  try_except
    (spotify_info <-- _get_comprehensive_spotify_data service song ;;
     match spotify_info with
     | Some info => sd <-- lift (extract_spotify_data info) ;; ret (Some sd)
     | None => ret None
     end)
    (fun _ => ret None).

(** The [for song in songs] loop of the list view. *)
Fixpoint enrich_all (service : LyricsService) (songs : list Song)
  : M (list SongInfo) :=
  match songs with
  | [] => ret []
  | song :: rest =>
      sd <-- enrich service song ;;
      infos <-- enrich_all service rest ;;
      ret (song_info_of song sd :: infos)
  end.

(** [if song_id:] on the optional URL argument. *)
Definition sid_truthy (sid : option Z) : bool :=
  match sid with
  | Some n => negb (n =? 0)
  | None => false
  end.

(** [get_song_details_with_spotify_data]. *)
Definition get_song_details_with_spotify_data (sid : option Z) : M JsonResponse :=
  fun w =>
    let selected : res (list Song) * world :=
      if sid_truthy sid then
        match objects_get (default 0 sid) w with
        | (Ok song, w') => (Ok [song], w')
        | (Raise e, w') => (Raise e, w')
        end
      else objects_all w in
    match selected with
    | (Raise DoesNotExist, w') =>
        (Ok {| status := 404; content := ErrorBody "Song not found" |}, w')
    | (Raise e, w') => (Raise e, w')
    | (Ok songs, w') =>
        (lyrics_service <-- LyricsService_init ;;
         song_data <-- enrich_all lyrics_service songs ;;
         ret {| status := 200; content := SongsBody song_data |}) w'
    end.

(** [get_lyrics_view], under [require_http_methods(["GET"])]. *)
Definition get_lyrics_view (method : http_method) (sid : Z) : M JsonResponse :=
  match method with
  | GET =>
      try_except
        (lyrics_data <-- get_song_lyrics sid ;;
         ret {| status := 200; content := LyricsBody lyrics_data |})
        (fun e => ret {| status := 500; content := FailureBody e |})
  | _ => ret {| status := 405; content := ErrorBody "" |}
  end.

(** ** Example data *)

Definition LF : string := String "010"%char EmptyString.

(** The configuration text [client_id: abc], [# comment], a line with one
    space, [client_secret = xyz]. *)
Definition example_spotify_txt : string :=
  "client_id: abc" +:+ LF +:+ "# comment" +:+ LF +:+ " " +:+ LF
  +:+ "client_secret = xyz".

Definition example_credentials : gmap string string :=
  <["client_secret" := "xyz"]> (<["client_id" := "abc"]> ∅).

Definition example_service : LyricsService :=
  {| genius_api_key := JNull; spotify_credentials := Some example_credentials |}.

Definition example_song (sid : Z) (text : option string) (track_id : option json)
  : Song :=
  {| song_id := sid; title := "Song"; artist := {| artist_id := 7; artist_name := "Ann" |};
     album := None; duration := 185; total_streams := 0;
     created_at := "2024-01-01T00:00:00"; lyrics := text;
     spotify_track_id := track_id |}.

Definition example_token_body : json :=
  JDict [("access_token", JStr "tok"); ("expires_in", JInt 3600)].

(** A network that grants the token ["tok"] and answers every search
    with [search]. *)
Definition example_net (search : outcome) : list request -> request -> outcome :=
  fun _ req =>
    match req with
    | TokenPost _ => Response 200 (Some example_token_body)
    | SearchGet _ _ => search
    | _ => NetError
    end.

(** A world with an empty cache, at time 0. *)
Definition example_world (songs : list Song) (n : list request -> request -> outcome)
  : world :=
  {| catalog := songs;
     cache := {| token_entry := None; lyrics_entries := ∅ |};
     now := 0%Q; calls := []; net := n;
     spotify_txt := Content example_spotify_txt; GENIUS_API_KEY := JNull |}.

(** ** Vocabulary of the properties *)

(** [keeps R c]: running [c] relates the world before to the world after
    by [R], whether [c] returns or raises.  [total c]: [c] returns. *)
Definition keeps {A} (R : relation world) (c : M A) : Prop :=
  forall w, R w (c w).2.

Definition total {A} (c : M A) : Prop :=
  forall w, exists a, (c w).1 = Ok a.

(** The token exchange and the searches log their requests and may set
    the token entry; the catalog, the lyrics entries, the clock and the
    configuration stay. *)
Definition ext_step (w w' : world) : Prop :=
  catalog w' = catalog w
  /\ lyrics_entries (cache w') = lyrics_entries (cache w)
  /\ now w' = now w
  /\ net w' = net w
  /\ spotify_txt w' = spotify_txt w
  /\ GENIUS_API_KEY w' = GENIUS_API_KEY w.

(** The value of key [k] in the items [d], or [dflt]. *)
Definition field_or (d : list (string * json)) (k : string) (dflt : json) : json :=
  default dflt (Py.assoc k d).

(** The search body whose only track has just an id and a name. *)
Definition id_name_body (i n : json) : json :=
  JDict [("tracks", JDict [("items", JList [JDict [("id", i); ("name", n)]])])].

(** What the resolution chain leaves alone: the ids of the catalog rows,
    the lyrics entries, the clock and the configuration. *)
Definition ids_step (w w' : world) : Prop :=
  map song_id (catalog w') = map song_id (catalog w)
  /\ lyrics_entries (cache w') = lyrics_entries (cache w)
  /\ now w' = now w
  /\ net w' = net w
  /\ spotify_txt w' = spotify_txt w
  /\ GENIUS_API_KEY w' = GENIUS_API_KEY w.



(** The row [Song.objects.get(id=sid)] returns. *)
Definition lookup_song (sid : Z) (w : world) : option Song :=
  find (fun s => song_id s =? sid) (catalog w).





(** A search body whose track lists an artist with a null name. *)
Definition null_artist_body : json :=
  JDict [("tracks", JDict [("items", JList [JDict
    [("id", JStr "t1"); ("name", JStr "Song");
     ("artists", JList [JDict [("name", JNull)]])]])])].

Definition null_artist_world : world :=
  example_world [example_song 1 None None]
    (example_net (Response 200 (Some null_artist_body))).






(** ** Vocabulary of the further properties *)

(** [sends n c]: running [c] appends at most [n] requests to the log of
    external requests and removes none. *)
Definition sends {A} (n : nat) (c : M A) : Prop :=
  forall w, exists l, calls (c w).2 = (calls w ++ l)%list /\ (length l <= n)%nat.

(** The answers of the token endpoint on which the exchange yields no
    token: a transport error, a status other than 200, a body that is not
    JSON or not a dict, or an [expires_in] that 60 cannot be subtracted
    from. *)
Definition exchange_fails (o : outcome) : Prop :=
  match o with
  | NetTimeout | NetError => True
  | Response st b =>
      st <> 200
      \/ b = None
      \/ (exists v, b = Some v /\ Py.is_dict v = false)
      \/ (exists d, b = Some (JDict d)
                    /\ Py.minus (field_or d "expires_in" (JInt 3600)) 60
                       = Raise TypeError)
  end.

(** A world without a credentials file. *)
Definition unconfigured_world (songs : list Song) : world :=
  {| catalog := songs;
     cache := {| token_entry := Some (JStr "tok", 1000%Q); lyrics_entries := ∅ |};
     now := 0%Q; calls := []; net := example_net NetError;
     spotify_txt := Absent; GENIUS_API_KEY := JNull |}.

(** The answers to a track search on which nothing is found: a transport
    error, a status other than 200, a body that is not JSON, a dict whose
    [tracks.items] is an empty list, or one whose first item is not a
    dict. *)
Definition search_misses (o : outcome) : Prop :=
  match o with
  | NetTimeout | NetError => True
  | Response st b =>
      st <> 200
      \/ b = None
      \/ (exists d d', b = Some (JDict d)
                       /\ field_or d "tracks" (JDict []) = JDict d'
                       /\ field_or d' "items" (JList []) = JList [])
      \/ (exists d d' x l, b = Some (JDict d)
                           /\ field_or d "tracks" (JDict []) = JDict d'
                           /\ field_or d' "items" (JList []) = JList (x :: l)
                           /\ Py.is_dict x = false)
  end.


(** ** Batch update of lyrics: [batch_update_lyrics] *)








(** ** The refresh view *)

(** [refresh_lyrics_view], under [require_http_methods(["POST"])],
    [login_required] and [csrf_exempt], applied in that order from the
    outside: another method is answered 405; an anonymous request is
    redirected to the login page. *)
Definition refresh_lyrics_view (method : http_method) (authenticated : bool)
  (sid : Z) : M JsonResponse :=
  match method with
  | POST =>
      if authenticated then
        try_except
          (lyrics_data <-- refresh_lyrics_cache sid ;;
           ret {| status := 200; content := LyricsBody lyrics_data |})
          (fun e => ret {| status := 500; content := FailureBody e |})
      else ret {| status := 302; content := ErrorBody "" |}
  | _ => ret {| status := 405; content := ErrorBody "" |}
  end.

(** ** Stream analytics: [songs/streams.py] *)

(** A row of the [Stream] table: the ids of its song and user, its time
    and the seconds listened. *)
Record Stream : Type := {
  stream_song : Z;
  stream_user : Z;
  timestamp : Q;
  duration_listened : Z
}.

(** The calendar of the deployment, which the settings fix: the date the
    [timestamp__date] lookup gives a timestamp, and the date
    [timezone.now().date()] gives the clock.  Dates are day numbers. *)
Record Calendar : Type := {
  lookup_date : Q -> Z;
  now_date : Q -> Z
}.

(** The dict [get_song_stream_analytics] returns. *)
Record Analytics : Type := {
  a_song_id : Z;
  a_song_title : string;
  a_artist : string;
  a_total_streams : Z;
  a_unique_listeners : Z;
  a_total_duration_listened_seconds : Z;
  a_total_duration_listened_formatted : string;
  a_time_period : string
}.

(** [format_duration]; [pretty] prints an int in decimal, as an f-string
    does. *)
Definition format_duration (seconds : Z) : string :=
  if 3600 <=? seconds then
    let hours := seconds / 3600 in
    let minutes := (seconds mod 3600) / 60 in
    pretty hours +:+ "h " +:+ pretty minutes +:+ "m"
  else if 60 <=? seconds then
    let minutes := seconds / 60 in
    pretty minutes +:+ "m"
  else pretty seconds +:+ "s".

(** The time filter [time_period] selects; a period other than [today],
    [week] and [month] selects every stream. *)
Definition in_period (cal : Calendar) (t : Q) (time_period : option string)
  (s : Stream) : bool :=
  if str_truthy time_period then
    let p := default "" time_period in
    if String.eqb p "today" then lookup_date cal (timestamp s) =? now_date cal t
    else if String.eqb p "week" then Qle_bool (t - inject_Z (7 * 86400)) (timestamp s)
    else if String.eqb p "month" then Qle_bool (t - inject_Z (30 * 86400)) (timestamp s)
    else true
  else true.

(** The streams of the song with id [sid] in the period. *)
Definition streams_of (cal : Calendar) (streams : list Stream) (sid : Z)
  (time_period : option string) (w : world) : list Stream :=
  List.filter (in_period cal (now w) time_period)
    (List.filter (fun s => stream_song s =? sid) streams).

(** [get_song_stream_analytics]. *)
Definition get_song_stream_analytics (cal : Calendar) (streams : list Stream)
  (sid : Z) (time_period : option string) (w : world) : option Analytics :=
  match lookup_song sid w with
  | None => None
  | Some song =>
      let selected := streams_of cal streams (song_id song) time_period w in
      let total_streams := Z.of_nat (length selected) in
      let unique_listeners :=
        Z.of_nat (length (remove_dups (map stream_user selected))) in
      let total_duration := foldr Z.add 0 (map duration_listened selected) in
      Some {| a_song_id := song_id song;
              a_song_title := title song;
              a_artist := artist_name (artist song);
              a_total_streams := total_streams;
              a_unique_listeners := unique_listeners;
              a_total_duration_listened_seconds := total_duration;
              a_total_duration_listened_formatted := format_duration total_duration;
              a_time_period :=
                if str_truthy time_period then default "" time_period
                else "all_time" |}
  end.

(** [list.sort(key=lambda x: x['total_streams'], reverse=True)]: the
    stable sort by decreasing key.  An element goes before the elements to
    its right whose key is not larger. *)
Fixpoint insert_desc (x : Analytics) (l : list Analytics) : list Analytics :=
  match l with
  | [] => [x]
  | y :: l' =>
      if a_total_streams y <=? a_total_streams x then x :: l
      else y :: insert_desc x l'
  end.

Definition sort_desc (l : list Analytics) : list Analytics :=
  foldr insert_desc [] l.

(** The [for song in songs] loop of [get_all_songs_stream_analytics]. *)
Definition collect_analytics (cal : Calendar) (streams : list Stream)
  (time_period : option string) (w : world) : list Analytics :=
  omap (fun song => get_song_stream_analytics cal streams (song_id song)
                      time_period w)
    (catalog w).

(** [get_all_songs_stream_analytics]. *)
Definition get_all_songs_stream_analytics (cal : Calendar)
  (streams : list Stream) (time_period : option string) (w : world)
  : list Analytics :=
  sort_desc (collect_analytics cal streams time_period w).

(** [l[:n]]: a negative [n] counts from the end. *)
Definition slice_to {A} (l : list A) (n : Z) : list A :=
  if 0 <=? n then take (Z.to_nat n) l
  else take (Z.to_nat (Z.of_nat (length l) + n)) l.

(** [get_top_songs]. *)
Definition get_top_songs (cal : Calendar) (streams : list Stream) (limit : Z)
  (time_period : option string) (w : world) : list Analytics :=
  slice_to (get_all_songs_stream_analytics cal streams time_period w) limit.

(** What [get_stream_analytics] returns: the analytics of one song, [None]
    when the song is missing, or the list for all songs. *)
Inductive analytics_result : Type :=
| OneSong (a : option Analytics)
| AllSongs (l : list Analytics).

(** [get_stream_analytics]. *)
Definition get_stream_analytics (cal : Calendar) (streams : list Stream)
  (sid : option Z) (time_period : option string) (w : world)
  : analytics_result :=
  if sid_truthy sid
  then OneSong (get_song_stream_analytics cal streams (default 0 sid) time_period w)
  else AllSongs (get_all_songs_stream_analytics cal streams time_period w).

(** The response of [song_stream_analytics]: its status and, unless it
    is the "Song not found" error, the analytics. *)
Definition song_stream_analytics (cal : Calendar) (streams : list Stream)
  (sid : option Z) (period : option string) (w : world)
  : Z * option analytics_result :=
  match get_stream_analytics cal streams sid period w with
  | OneSong None => (404, None)
  | analytics => (200, Some analytics)
  end.

(** A calendar of UTC days, two songs and three streams. *)
Definition utc_calendar : Calendar :=
  {| lookup_date := fun t => Qfloor (t / 86400);
     now_date := fun t => Qfloor (t / 86400) |}.

Definition example_streams : list Stream :=
  [{| stream_song := 1; stream_user := 10; timestamp := 5%Q; duration_listened := 30 |};
   {| stream_song := 2; stream_user := 10; timestamp := 6%Q; duration_listened := 90 |};
   {| stream_song := 2; stream_user := 11; timestamp := 7%Q; duration_listened := 45 |}].

(** Two songs for the analytics examples. *)
Definition analytics_world : world :=
  example_world [example_song 1 None None; example_song 2 None None]
    (example_net NetError).

(** ** The setup command: [songs/setup_spotify.py] *)

(** The file the setup command writes, and the file the service reads,
    as paths under [BASE_DIR]. *)
Definition setup_path : string := "api/spotify.txt".
Definition loader_path : string := "apis/spotify.txt".

Definition resource_at (fs : gmap string string) (path : string) : resource :=
  match fs !! path with
  | Some text => Content text
  | None => Absent
  end.

(** The world whose credentials file is the one the files [fs] have at
    [loader_path]. *)
Definition with_files (fs : gmap string string) (w : world) : world :=
  {| catalog := catalog w; cache := cache w; now := now w; calls := calls w;
     net := net w; spotify_txt := resource_at fs loader_path;
     GENIUS_API_KEY := GENIUS_API_KEY w |}.

(** The two lines the command writes. *)
Definition credentials_text (client_id client_secret : string) : string :=
  "client_id: " +:+ client_id +:+ LF +:+ "client_secret: " +:+ client_secret +:+ LF.

(** How the command ends: the user declined to overwrite, a credential
    was left empty, the file was written (and the credentials test did or
    did not obtain a token), or [input()] found the input exhausted. *)
Inductive setup_outcome : Type :=
| SetupAborted
| SetupMissing
| SetupWritten (works : bool)
| SetupEOF.

(** An option of the command if it is given and not empty, else the next
    line of input. *)
Definition option_or_input (opt : option string) (inputs : list string)
  : option (string * list string) :=
  if str_truthy opt then Some (default "" opt, inputs)
  else match inputs with
       | [] => None
       | line :: rest => Some (line, rest)
       end.

(** The credentials test at the end of the command. *)
Definition setup_test (w : world) : bool * world :=
  match (service <-- LyricsService_init ;;
         _get_spotify_access_token service) w with
  | (Ok token, w') => (Py.truthy token, w')
  | (Raise _, w') => (false, w')
  end.

(** [Command.handle]: the options [--client-id] and [--client-secret],
    the lines typed at the prompts, the files and the world. *)
Definition setup_handle (opt_id opt_secret : option string)
  (inputs : list string) (fs : gmap string string) (w : world)
  : setup_outcome * gmap string string * world :=
  let confirmed : setup_outcome + list string :=
    match fs !! setup_path with
    | Some _ =>
        match inputs with
        | [] => inl SetupEOF
        | overwrite :: rest =>
            if String.eqb (PyStr.lower overwrite) "y" then inr rest
            else inl SetupAborted
        end
    | None => inr inputs
    end in
  match confirmed with
  | inl o => (o, fs, w)
  | inr inputs =>
      match option_or_input opt_id inputs with
      | None => (SetupEOF, fs, w)
      | Some (client_id, inputs) =>
          match option_or_input opt_secret inputs with
          | None => (SetupEOF, fs, w)
          | Some (client_secret, _) =>
              if PyStr.is_empty client_id || PyStr.is_empty client_secret
              then (SetupMissing, fs, w)
              else
                let fs' := <[setup_path := credentials_text client_id client_secret]> fs in
                let '(works, w') := setup_test (with_files fs' w) in
                (SetupWritten works, fs', w')
          end
      end
  end.

(** No character of [s] is a line boundary. *)
Fixpoint no_linebreak (s : string) : bool :=
  match s with
  | EmptyString => true
  | String c s' => negb (PyStr.islinebreak c) && no_linebreak s'
  end.

(** ** The older search helper of the song views: [get_spotify_song_data] *)

(** The dict [get_spotify_song_data] returns. *)
Record SongData : Type := {
  gd_spotify_id : json;
  gd_preview_url : json;
  gd_external_url : json;
  gd_popularity : json;
  gd_album_image : json
}.

(** [response.raise_for_status()]: a status from 400 to 599 raises
    [HTTPError], a [RequestException]. *)
Definition raise_for_status (status_code : Z) : res unit :=
  if (400 <=? status_code) && (status_code <? 600) then Raise RequestException
  else Ok tt.

(** [except requests.exceptions.RequestException], which [Timeout] is a
    subclass of. *)
Definition except_request_exception {A} (body : M A) (handler : M A) : M A :=
  fun w =>
    match body w with
    | (Raise Timeout, w') => handler w'
    | (Raise RequestException, w') => handler w'
    | other => other
    end.

(** The dict display of [get_spotify_song_data], on the first track. *)
Definition song_data_of (track : json) : res SongData :=
  res_bind (Py.item track "id") (fun spotify_id =>
  res_bind (Py.get track "preview_url" JNull) (fun preview_url =>
  res_bind (Py.item track "external_urls") (fun external_urls =>
  res_bind (Py.item external_urls "spotify") (fun external_url =>
  res_bind (Py.item track "popularity") (fun popularity =>
  res_bind (Py.item track "album") (fun album1 =>
  res_bind (Py.item album1 "images") (fun images1 =>
  res_bind (if Py.truthy images1 then
              res_bind (Py.item track "album") (fun album2 =>
              res_bind (Py.item album2 "images") (fun images2 =>
              res_bind (Py.item0 images2) (fun image =>
              Py.item image "url")))
            else Ok JNull) (fun album_image =>
  Ok {| gd_spotify_id := spotify_id; gd_preview_url := preview_url;
        gd_external_url := external_url; gd_popularity := popularity;
        gd_album_image := album_image |})))))))).

(** [get_spotify_song_data].  [json_error] is the exception
    [response.json()] raises on a body that is not JSON, which depends on
    the version of [requests]: a [RequestException] or a [ValueError]. *)
Definition get_spotify_song_data (json_error : exn)
  (song_title artist_name : string) (api_key : json) : M (option SongData) :=
  if negb (Py.truthy api_key) then ret None
  else
    except_request_exception
      (response <--
         send (SearchGet api_key
                 ("track:" +:+ song_title +:+ " artist:" +:+ artist_name)) ;;
       let '(status_code, body) := response in
       lift (raise_for_status status_code) ;;;
       data <-- lift (match body with
                      | Some v => Ok v
                      | None => Raise json_error
                      end) ;;
       tracks_obj <-- lift (Py.get data "tracks" (JDict [])) ;;
       items <-- lift (Py.get tracks_obj "items" JNull) ;;
       if Py.truthy items then
         tracks1 <-- lift (Py.item data "tracks") ;;
         items1 <-- lift (Py.item tracks1 "items") ;;
         track <-- lift (Py.item0 items1) ;;
         song_data <-- lift (song_data_of track) ;;
         ret (Some song_data)
       else ret None)
      (ret None).

(** A search body whose first track is the dict [d]. *)
Definition tracks_body (d : list (string * json)) (others : list json) : json :=
  JDict [("tracks", JDict [("items", JList (JDict d :: others))])].

(** ** The album and artist searches: [albums/views.py], [artists/views.py] *)


(** The dict [_get_spotify_artist_data] returns. *)
Record ArtistData : Type := {
  ar_spotify_id : json;
  ar_name : json;
  ar_genres : json;
  ar_popularity : json;
  ar_followers : json;
  ar_external_url : json;
  ar_images : json
}.

(** [v.get(k, {}).get(k2) if isinstance(v.get(k), dict) else None]. *)
Definition nested_get (v : json) (k k2 : string) : res json :=
  res_bind (Py.get v k JNull) (fun raw =>
  if Py.is_dict raw
  then res_bind (Py.get v k (JDict [])) (fun inner => Py.get inner k2 JNull)
  else Ok JNull).


(** The dict display of [_get_spotify_artist_data]. *)
Definition extract_artist_data (artist : json) : res ArtistData :=
  res_bind (Py.get artist "id" (JStr "")) (fun spotify_id =>
  res_bind (Py.get artist "name" (JStr "")) (fun name =>
  res_bind (Py.get artist "genres" (JList [])) (fun genres =>
  res_bind (Py.get artist "popularity" JNull) (fun popularity =>
  res_bind (nested_get artist "followers" "total") (fun followers =>
  res_bind (nested_get artist "external_urls" "spotify") (fun external_url =>
  res_bind (Py.get artist "images" (JList [])) (fun images =>
  Ok {| ar_spotify_id := spotify_id; ar_name := name; ar_genres := genres;
        ar_popularity := popularity; ar_followers := followers;
        ar_external_url := external_url; ar_images := images |}))))))).

(** What follows [data = response.json()] in the two searches: the first
    item of [data[kind]['items']], read defensively. *)
Definition first_item {A} (kind : string) (extract : json -> res A) (data : json)
  : res (option A) :=
  res_bind (Py.get data kind (JDict [])) (fun obj =>
  res_bind (Py.get obj "items" (JList [])) (fun items =>
  res_bind (if Py.truthy items
            then res_bind (Py.len items) (fun n => Ok (0 <? n))
            else Ok false) (fun nonempty =>
  if nonempty then
    res_bind (Py.item0 items) (fun item =>
    if negb (Py.is_dict item) then Ok None
    else res_try (res_bind (extract item) (fun x => Ok (Some x)))
                 (fun _ => Ok None))
  else Ok None))).

(** The body shared by [_get_spotify_album_data] and
    [_get_spotify_artist_data]: a new service, its token, one search.  The
    search type goes with the first word of the query [q]. *)
Definition search_first {A} (kind q : string) (extract : json -> res A)
  : M (option A) :=
  service <-- LyricsService_init ;;
  access_token <-- _get_spotify_access_token service ;;
  if negb (Py.truthy access_token) then ret None
  else
    try_except
      (response <-- send (SearchGet access_token q) ;;
       let '(status_code, body) := response in
       if status_code =? 200 then
         match response_json body with
         | Raise _ => ret None
         | Ok data => lift (first_item kind extract data)
         end
       else ret None)
      (fun _ => ret None).


(** [_get_spotify_artist_data]. *)
Definition _get_spotify_artist_data (artist_name : string)
  : M (option ArtistData) :=
  search_first "artists" ("artist:" +:+ artist_name) extract_artist_data.

(** The artist structure read from the items [d]. *)
Definition artist_data_of (d : list (string * json)) : ArtistData :=
  {| ar_spotify_id := field_or d "id" (JStr "");
     ar_name := field_or d "name" (JStr "");
     ar_genres := field_or d "genres" (JList []);
     ar_popularity := field_or d "popularity" JNull;
     ar_followers :=
       match Py.assoc "followers" d with
       | Some (JDict f) => field_or f "total" JNull
       | _ => JNull
       end;
     ar_external_url :=
       match Py.assoc "external_urls" d with
       | Some (JDict u) => field_or u "spotify" JNull
       | _ => JNull
       end;
     ar_images := field_or d "images" (JList []) |}.

(** A search body of the given kind whose first item is the dict [d]. *)
Definition items_body (kind : string) (d : list (string * json))
  (others : list json) : json :=
  JDict [(kind, JDict [("items", JList (JDict d :: others))])].

(** Worlds for the search examples: a track whose [artists] is null, an
    album with only an id, an artist with a follower count. *)
Definition null_artists_world : world :=
  example_world []
    (example_net (Response 200
       (Some (tracks_body [("id", JStr "t1"); ("artists", JNull)] [])))).


Definition artist_world : world :=
  example_world []
    (example_net (Response 200
       (Some (items_body "artists"
                [("id", JStr "r1"); ("followers", JDict [("total", JInt 5)])] [])))).

(** * Properties *)

(** ** Credential store *)

Section CredentialStore.

Import PyStr.

Lemma contains_append c k s :
  contains c (k +:+ s) = contains c k || contains c s.
Proof.
  induction k as [|c' k IH]; simpl; [done|].
  rewrite IH. by rewrite orb_assoc.
Qed.

Lemma contains_sep c v : contains c (String c v) = true.
Proof. simpl. by rewrite Ascii.eqb_refl. Qed.

Lemma split1_first c k v :
  contains c k = false -> split1 c (k +:+ String c v) = (k, v).
Proof.
  induction k as [|c' k IH]; simpl; intros H.
  - by rewrite Ascii.eqb_refl.
  - apply orb_false_iff in H as [H1 H2].
    rewrite H1, (IH H2). done.
Qed.

Lemma parse_line_skip credentials line :
  is_skipped line = true -> parse_line credentials line = credentials.
Proof. intros H. unfold parse_line. by rewrite H. Qed.

Lemma parse_line_colon credentials key value :
  contains ":" key = false ->
  is_skipped (key +:+ ":" +:+ value) = false ->
  parse_line credentials (key +:+ ":" +:+ value)
  = <[lower (strip key) := strip value]> credentials.
Proof.
  intros Hk Hs. unfold parse_line. rewrite Hs.
  change (":" +:+ value) with (String ":" value).
  rewrite contains_append, contains_sep, orb_true_r.
  by rewrite (split1_first _ _ _ Hk).
Qed.

Lemma parse_line_equals credentials key value :
  contains ":" key = false -> contains ":" value = false ->
  contains "=" key = false ->
  is_skipped (key +:+ "=" +:+ value) = false ->
  parse_line credentials (key +:+ "=" +:+ value)
  = <[lower (strip key) := strip value]> credentials.
Proof.
  intros Hk Hv Hk' Hs. unfold parse_line. rewrite Hs.
  change ("=" +:+ value) with (String "=" value).
  rewrite contains_append. simpl contains at 2. rewrite Hk, Hv. simpl.
  rewrite contains_append, contains_sep, orb_true_r.
  by rewrite (split1_first _ _ _ Hk').
Qed.

Lemma parse_line_other credentials line :
  contains ":" line = false -> contains "=" line = false ->
  parse_line credentials line = credentials.
Proof.
  intros H1 H2. unfold parse_line. rewrite H1, H2. by destruct (is_skipped line).
Qed.

Lemma load_content text :
  _load_spotify_credentials (Content text)
  = Ok (let credentials := parse_lines (splitlines (strip text)) in
        match credentials !! "client_id", credentials !! "client_secret" with
        | Some _, Some _ => Some credentials
        | _, _ => None
        end).
Proof.
  unfold _load_spotify_credentials, required_keys. simpl.
  set (c := parse_lines _).
  rewrite !filter_cons, filter_nil.
  destruct (c !! "client_id") as [x|], (c !! "client_secret") as [y|];
    repeat case_decide; try congruence; done.
Qed.

Lemma load_some text c :
  _load_spotify_credentials (Content text) = Ok (Some c)
  <-> c = parse_lines (splitlines (strip text))
      /\ is_Some (c !! "client_id") /\ is_Some (c !! "client_secret").
Proof.
  rewrite load_content. cbv zeta.
  set (p := parse_lines _).
  split.
  - destruct (p !! "client_id") as [x|] eqn:E1;
      destruct (p !! "client_secret") as [y|] eqn:E2; try done.
    intros [= <-]. rewrite E1, E2. eauto.
  - intros (-> & [x E1] & [y E2]). by rewrite E1, E2.
Qed.

Lemma load_none text :
  _load_spotify_credentials (Content text) = Ok None
  <-> parse_lines (splitlines (strip text)) !! "client_id" = None
      \/ parse_lines (splitlines (strip text)) !! "client_secret" = None.
Proof.
  rewrite load_content. cbv zeta.
  set (p := parse_lines _).
  destruct (p !! "client_id") as [x|]; destruct (p !! "client_secret") as [y|];
    split; intros H; try done; try (by destruct H); eauto.
Qed.

(** C8.  Credential loading never raises.  It yields [None] for an
    absent or unreadable resource.  For a text it yields the parsed
    mapping exactly when the mapping has both [client_id] and
    [client_secret], and [None] exactly when one of them is missing.  In
    the parse, a blank line and a line whose first non-blank character
    is [#] leave the mapping as it is; a line [key:value] binds the
    stripped, lowercased key to the stripped value; so does a line
    [key=value] without a colon; a line with neither separator is
    ignored.  The text [client_id: abc / # comment / (blank) /
    client_secret = xyz] loads as the two bindings, and a text without
    [client_secret] loads as [None]. *)
Theorem load_spotify_credentials_spec :
  (forall r, exists o, _load_spotify_credentials r = Ok o)
  /\ _load_spotify_credentials Absent = Ok None
  /\ _load_spotify_credentials Unreadable = Ok None
  /\ (forall text c,
        _load_spotify_credentials (Content text) = Ok (Some c)
        <-> c = parse_lines (splitlines (strip text))
            /\ is_Some (c !! "client_id") /\ is_Some (c !! "client_secret"))
  /\ (forall text,
        _load_spotify_credentials (Content text) = Ok None
        <-> parse_lines (splitlines (strip text)) !! "client_id" = None
            \/ parse_lines (splitlines (strip text)) !! "client_secret" = None)
  /\ (forall credentials line,
        strip line = "" \/ startswith_char "#" (strip line) = true ->
        parse_line credentials line = credentials)
  /\ (forall credentials key value,
        contains ":" key = false ->
        is_skipped (key +:+ ":" +:+ value) = false ->
        parse_line credentials (key +:+ ":" +:+ value)
        = <[lower (strip key) := strip value]> credentials)
  /\ (forall credentials key value,
        contains ":" key = false -> contains ":" value = false ->
        contains "=" key = false ->
        is_skipped (key +:+ "=" +:+ value) = false ->
        parse_line credentials (key +:+ "=" +:+ value)
        = <[lower (strip key) := strip value]> credentials)
  /\ (forall credentials line,
        contains ":" line = false -> contains "=" line = false ->
        parse_line credentials line = credentials)
  /\ _load_spotify_credentials (Content example_spotify_txt)
     = Ok (Some (<["client_secret" := "xyz"]> (<["client_id" := "abc"]> ∅)))
  /\ _load_spotify_credentials (Content "client_id: abc") = Ok None.
Proof.
  split; [|split; [|split; [|split; [|split; [|split; [|split; [|split;
    [|split; [|split]]]]]]]]].
  - intros [| |text]; [by eexists..|]. rewrite load_content. by eexists.
  - done.
  - done.
  - apply load_some.
  - apply load_none.
  - intros credentials line H. apply parse_line_skip. unfold is_skipped.
    destruct H as [->| ->]; [done|]. apply orb_true_r.
  - apply parse_line_colon.
  - apply parse_line_equals.
  - apply parse_line_other.
  - by vm_compute.
  - by vm_compute.
Qed.

(** The line [Client_ID : abc] of a configuration text binds [client_id]
    to [abc]. *)
Lemma load_spotify_credentials_spec_witness :
  contains ":" "Client_ID " = false
  /\ is_skipped ("Client_ID " +:+ ":" +:+ " abc") = false
  /\ parse_line ∅ ("Client_ID " +:+ ":" +:+ " abc") = <["client_id" := "abc"]> ∅.
Proof.
  split; [reflexivity|]. split; [reflexivity|].
  exact (proj1 (proj2 (proj2 (proj2 (proj2 (proj2 (proj2
           load_spotify_credentials_spec))))))
           ∅ "Client_ID " " abc" eq_refl eq_refl).
Defined.

End CredentialStore.

(** ** Reasoning about computations *)

Section Combinators.

Context (R : relation world) `{!PreOrder R}.

Lemma keeps_ret {A} (a : A) : keeps R (ret a).
Proof. intros w. simpl. reflexivity. Qed.

Lemma keeps_raise {A} e : keeps R (@raise A e).
Proof. intros w. simpl. reflexivity. Qed.

Lemma keeps_lift {A} (r : res A) : keeps R (lift r).
Proof. intros w. simpl. reflexivity. Qed.

Lemma keeps_bind {A B} (c : M A) (k : A -> M B) :
  keeps R c -> (forall a, keeps R (k a)) -> keeps R (bind c k).
Proof.
  intros Hc Hk w. unfold bind. specialize (Hc w).
  destruct (c w) as [[a|e] w1]; simpl in *; [|done].
  etrans; [exact Hc|apply Hk].
Qed.

Lemma keeps_try {A} (body : M A) (handler : exn -> M A) :
  keeps R body -> (forall e, keeps R (handler e)) ->
  keeps R (try_except body handler).
Proof.
  intros Hc Hk w. unfold try_except. specialize (Hc w).
  destruct (body w) as [[a|e] w1]; simpl in *; [done|].
  etrans; [exact Hc|apply Hk].
Qed.

End Combinators.

Lemma total_ret {A} (a : A) : total (ret a).
Proof. intros w. by exists a. Qed.

Lemma total_bind {A B} (c : M A) (k : A -> M B) :
  total c -> (forall a, total (k a)) -> total (bind c k).
Proof.
  intros Hc Hk w. unfold bind. destruct (Hc w) as [a Ha].
  destruct (c w) as [r w1]; simpl in *; subst r. apply Hk.
Qed.

(** A [try] whose handler returns never raises, whatever its body does. *)
Lemma total_try {A} (body : M A) (handler : exn -> M A) :
  (forall e, total (handler e)) -> total (try_except body handler).
Proof.
  intros Hk w. unfold try_except.
  destruct (body w) as [[a|e] w1]; simpl; [by exists a|apply Hk].
Qed.

(** Splits a goal on the conditionals and matches at the head of a
    computation. *)
Ltac split_head :=
  match goal with
  | |- context [keeps _ (if ?b then _ else _)] => destruct b
  | |- context [total (if ?b then _ else _)] => destruct b
  | |- context [keeps _ (match ?x with _ => _ end)] => destruct x
  | |- context [total (match ?x with _ => _ end)] => destruct x
  | |- context [keeps _ (let '(_, _) := ?x in _)] => destruct x
  | |- context [total (let '(_, _) := ?x in _)] => destruct x
  end.

(** *** What the external steps leave alone *)

#[local] Instance ext_step_preorder : PreOrder ext_step.
Proof.
  split.
  - by intros w.
  - intros w1 w2 w3 (?&?&?&?&?&?) (?&?&?&?&?&?). unfold ext_step.
    repeat split; congruence.
Qed.

Lemma keeps_send req : keeps ext_step (send req).
Proof. intros w. unfold send. by destruct (net w (calls w) req). Qed.

Lemma keeps_cache_get_token : keeps ext_step cache_get_token.
Proof. by intros w. Qed.

Lemma keeps_cache_set_token v t : keeps ext_step (cache_set_token v t).
Proof. by intros w. Qed.

Create HintDb steps.
#[local] Hint Resolve keeps_ret keeps_raise keeps_lift keeps_send
  keeps_cache_get_token keeps_cache_set_token total_ret : steps.

(** Runs the combinator lemmas through a computation. *)
Ltac step_through :=
  repeat first
    [ progress eauto with steps typeclass_instances
    | apply keeps_bind; [apply _| |intros ?]
    | apply keeps_try; [apply _| |intros ?]
    | apply total_bind; [|intros ?]
    | apply total_try; intros ?
    | split_head ].

Section ExternalSteps.

Context (self : LyricsService).

Lemma keeps_access_token : keeps ext_step (_get_spotify_access_token self).
Proof. unfold _get_spotify_access_token. step_through. Qed.

Lemma total_access_token : total (_get_spotify_access_token self).
Proof.
  unfold _get_spotify_access_token.
  destruct (negb _); [apply total_ret|].
  apply total_bind; [by intros w; eexists|intros tok].
  destruct (Py.truthy tok); [apply total_ret|].
  apply total_try. intros _. apply total_ret.
Qed.

Lemma keeps_track_info song : keeps ext_step (_get_spotify_track_info self song).
Proof.
  unfold _get_spotify_track_info.
  apply keeps_bind; [apply _|apply keeps_access_token|intros tok].
  step_through.
Qed.

Lemma total_track_info song : total (_get_spotify_track_info self song).
Proof.
  unfold _get_spotify_track_info.
  apply total_bind; [apply total_access_token|intros tok].
  destruct (negb _); [apply total_ret|].
  apply total_try. intros _. apply total_ret.
Qed.

Lemma keeps_comprehensive song :
  keeps ext_step (_get_comprehensive_spotify_data self song).
Proof.
  unfold _get_comprehensive_spotify_data.
  apply keeps_bind; [apply _|apply keeps_track_info|intros [info|]];
    [|step_through].
  destruct (negb _); [step_through|].
  apply keeps_bind; [apply _|apply keeps_access_token|intros tok].
  step_through.
Qed.

Lemma total_comprehensive song :
  total (_get_comprehensive_spotify_data self song).
Proof.
  unfold _get_comprehensive_spotify_data.
  apply total_bind; [apply total_track_info|intros [info|]];
    [|apply total_ret].
  destruct (negb _); [apply total_ret|].
  apply total_bind; [apply total_access_token|intros tok].
  destruct (negb _); [apply total_ret|].
  apply total_try. intros _. apply total_ret.
Qed.

End ExternalSteps.

(** ** Metadata client: the track search *)

Section TrackSearch.

Lemma artist_names_ok l : exists ns, artist_names l = Ok ns.
Proof.
  induction l as [|a l [ns IH]]; simpl; [by eexists|].
  destruct a; simpl; rewrite ?IH; simpl; by eexists.
Qed.

(** What [extract_track_info] puts in each field of a track dict. *)
Lemma extract_track_info_fields d info :
  extract_track_info (JDict d) = Ok info ->
  ti_spotify_id info = field_or d "id" (JStr "")
  /\ ti_name info = field_or d "name" (JStr "")
  /\ (exists l, Py.iter (field_or d "artists" (JList [])) = Ok l
                /\ artist_names l = Ok (ti_artists info))
  /\ ti_album info
     = match Py.assoc "album" d with
       | Some (JDict a) => field_or a "name" (JStr "")
       | _ => JStr ""
       end
  /\ ti_preview_url info = field_or d "preview_url" JNull
  /\ ti_external_urls info = field_or d "external_urls" (JDict [])
  /\ ti_duration_ms info = field_or d "duration_ms" JNull
  /\ ti_popularity info = field_or d "popularity" JNull
  /\ ti_audio_features info = None.
Proof.
  unfold extract_track_info, field_or. simpl.
  destruct (Py.iter _) as [l|e] eqn:Hl; simpl; [|done].
  destruct (artist_names l) as [ns|e] eqn:Hns; simpl; [|done].
  destruct (Py.assoc "album" d) as [[| | | | | |a]|] eqn:Ha; simpl;
    intros [= <-]; simpl; repeat split; eauto.
Qed.

(** A returned track structure is the first item of the search body,
    a dict, with every field read as in [extract_track_info_fields]. *)
Lemma first_track_some data info :
  first_track data = Ok (Some info) ->
  exists d, extract_track_info (JDict d) = Ok info.
Proof.
  unfold first_track. intros H.
  destruct (Py.get data "tracks" _) as [tracks_obj|] eqn:E1; simpl in H; [|done].
  destruct (Py.get tracks_obj "items" _) as [tracks|] eqn:E2; simpl in H; [|done].
  destruct (if Py.truthy tracks then _ else _) as [[]|]; simpl in H; try done.
  destruct (Py.item0 tracks) as [track|]; simpl in H; [|done].
  destruct track as [| | | | | |d]; simpl in H; try done.
  exists d. destruct (extract_track_info (JDict d)); simpl in H; congruence.
Qed.

Lemma track_info_some self song w info :
  (_get_spotify_track_info self song w).1 = Ok (Some info) ->
  exists d, extract_track_info (JDict d) = Ok info.
Proof.
  unfold _get_spotify_track_info, bind, try_except, ret, lift.
  destruct (_get_spotify_access_token self w) as [[tok|e] w1]; [|done].
  destruct (negb _); [done|].
  destruct (send _ w1) as [[[st b]|e] w2]; [|done].
  destruct (st =? 200); [|done].
  destruct (response_json b) as [data|e]; [|done].
  simpl. destruct (first_track data) as [o|e] eqn:E; simpl; [|done].
  intros [= ->]. by apply first_track_some in E.
Qed.

(** C7.  Whatever the external service answers, the track search never
    raises: it returns [None] or a track structure, and a structure it
    returns holds, for each field, the value found in the first track
    of the body or the field's default.  When the body's only track item
    has just an id and a name, the search returns the structure with
    that id and name, no artists, the empty album name, [None] for the
    preview URL, the duration and the popularity, and an empty dict of
    external URLs. *)
Theorem get_spotify_track_info_defensive self song w :
  (exists found, (_get_spotify_track_info self song w).1 = Ok found)
  /\ (forall info,
        (_get_spotify_track_info self song w).1 = Ok (Some info) ->
        exists d,
          ti_spotify_id info = field_or d "id" (JStr "")
          /\ ti_name info = field_or d "name" (JStr "")
          /\ (exists l, Py.iter (field_or d "artists" (JList [])) = Ok l
                        /\ artist_names l = Ok (ti_artists info))
          /\ ti_album info
             = match Py.assoc "album" d with
               | Some (JDict a) => field_or a "name" (JStr "")
               | _ => JStr ""
               end
          /\ ti_preview_url info = field_or d "preview_url" JNull
          /\ ti_external_urls info = field_or d "external_urls" (JDict [])
          /\ ti_duration_ms info = field_or d "duration_ms" JNull
          /\ ti_popularity info = field_or d "popularity" JNull
          /\ ti_audio_features info = None)
  /\ (forall tok i n,
        (_get_spotify_access_token self w).1 = Ok tok ->
        Py.truthy tok = true ->
        net w (calls (_get_spotify_access_token self w).2)
            (SearchGet tok (search_query song))
        = Response 200 (Some (id_name_body i n)) ->
        (_get_spotify_track_info self song w).1
        = Ok (Some {| ti_spotify_id := i; ti_name := n; ti_artists := [];
                      ti_album := JStr ""; ti_preview_url := JNull;
                      ti_external_urls := JDict []; ti_duration_ms := JNull;
                      ti_popularity := JNull; ti_audio_features := None |})).
Proof.
  split; [apply total_track_info|]. split.
  - intros info H. apply track_info_some in H as [d H].
    exists d. by apply extract_track_info_fields.
  - intros tok i n Htok Htruthy Hnet.
    pose proof (keeps_access_token self w) as (_&_&_&Hn&_).
    unfold _get_spotify_track_info, bind, try_except, send.
    destruct (_get_spotify_access_token self w) as [r w1]; simpl in *.
    subst r. rewrite Htruthy. simpl. rewrite Hn, Hnet. done.
Qed.

Lemma get_spotify_track_info_defensive_witness :
  let w := example_world [] (example_net (Response 200
             (Some (id_name_body (JStr "t1") (JStr "Song"))))) in
  let song := example_song 1 None None in
  (_get_spotify_access_token example_service w).1 = Ok (JStr "tok")
  /\ Py.truthy (JStr "tok") = true
  /\ (_get_spotify_track_info example_service song w).1
     = Ok (Some {| ti_spotify_id := JStr "t1"; ti_name := JStr "Song";
                   ti_artists := []; ti_album := JStr "";
                   ti_preview_url := JNull; ti_external_urls := JDict [];
                   ti_duration_ms := JNull; ti_popularity := JNull;
                   ti_audio_features := None |}).
Proof.
  intros w song.
  assert (H1 : (_get_spotify_access_token example_service w).1 = Ok (JStr "tok"))
    by (vm_compute; reflexivity).
  split; [exact H1|]. split; [reflexivity|].
  exact (proj2 (proj2 (get_spotify_track_info_defensive example_service song w))
           (JStr "tok") (JStr "t1") (JStr "Song") H1 eq_refl eq_refl).
Defined.

End TrackSearch.

(** ** Token cache *)

Section TokenCache.

Lemma live_before {A} (t0 ttl dt : Q) (v : A) :
  (dt < ttl)%Q -> live (t0 + dt)%Q (v, (t0 + ttl)%Q) = Some v.
Proof.
  intros H. unfold live. simpl.
  destruct (Qle_bool _ _) eqn:E; [|done].
  apply Qle_bool_iff in E. lra.
Qed.

Lemma live_after {A} (t0 ttl dt : Q) (v : A) :
  (ttl <= dt)%Q -> live (t0 + dt)%Q (v, (t0 + ttl)%Q) = None.
Proof.
  intros H. unfold live. simpl.
  destruct (Qle_bool _ _) eqn:E; [done|].
  assert (Qle_bool (t0 + ttl) (t0 + dt) = true) as E'
    by (apply Qle_bool_iff; lra).
  congruence.
Qed.

(** C6.  With credentials, no live cached token, and a token endpoint
    that answers 200 with a dict holding the non-empty token [tok] and
    [expires_in = n] (3600 when the key is absent): the call returns
    [tok], makes the one token request, and caches [tok] until
    [n - 60] seconds from now.  From then on a call within less than
    [n - 60] seconds returns [tok] without any request or change, and a
    call at [n - 60] seconds or later finds no token and sends the token
    request again.  For [n = 3600] the bound is 3540 seconds. *)
Theorem get_spotify_access_token_expiry self w req d tok n :
  credentials_truthy (spotify_credentials self) = true ->
  (cache_get_token w).1 = Ok JNull ->
  token_request self = Ok req ->
  net w (calls w) req = Response 200 (Some (JDict d)) ->
  Py.assoc "access_token" d = Some (JStr tok) -> tok <> "" ->
  field_or d "expires_in" (JInt 3600) = JInt n ->
  let w1 := (_get_spotify_access_token self w).2 in
  (_get_spotify_access_token self w).1 = Ok (JStr tok)
  /\ calls w1 = (calls w ++ [req])%list
  /\ token_entry (cache w1) = Some (JStr tok, (now w + inject_Z (n - 60))%Q)
  /\ (n = 3600 -> inject_Z (n - 60) = 3540%Q)
  /\ (forall dt : Q,
        (0 <= dt)%Q -> (dt < inject_Z (n - 60))%Q ->
        _get_spotify_access_token self (advance dt w1)
        = (Ok (JStr tok), advance dt w1))
  /\ (forall dt : Q,
        (inject_Z (n - 60) <= dt)%Q ->
        (cache_get_token (advance dt w1)).1 = Ok JNull
        /\ calls (_get_spotify_access_token self (advance dt w1)).2
           = (calls w1 ++ [req])%list).
Proof.
  intros Hcred Hmiss Hreq Hnet Htok Hne Hexp w1.
  assert (Hrun : _get_spotify_access_token self w
                 = (Ok (JStr tok),
                    set_cache {| token_entry := Some (JStr tok, (now w + inject_Z (n - 60))%Q);
                                 lyrics_entries := lyrics_entries (cache w) |}
                      (set_calls (calls w ++ [req]) w))).
  { unfold _get_spotify_access_token. rewrite Hcred. simpl.
    unfold bind, try_except, lift, send, ret.
    destruct (cache_get_token w) as [r w0] eqn:E. simpl in Hmiss. subst r.
    injection E as E <-. simpl. rewrite Hreq, Hnet. simpl.
    unfold field_or in Hexp. rewrite Htok. simpl.
    destruct (Py.assoc "expires_in" d) as [x|]; simpl in Hexp;
      [subst x|injection Hexp as <-]; reflexivity. }
  assert (Htruthy : Py.truthy (JStr tok) = true) by by destruct tok.
  subst w1. rewrite Hrun. simpl.
  split; [done|]. split; [done|]. split; [done|]. split; [by intros ->|].
  split.
  - intros dt H0 Hlt. unfold _get_spotify_access_token. rewrite Hcred. simpl.
    unfold bind, cache_get_token. simpl.
    rewrite (live_before _ _ _ _ Hlt). by rewrite Htruthy.
  - intros dt Hge. unfold _get_spotify_access_token, cache_get_token.
    rewrite Hcred. simpl. unfold bind. simpl.
    rewrite (live_after _ _ _ _ Hge). simpl. split; [done|].
    unfold try_except, bind, lift, send, ret, cache_set_token.
    rewrite Hreq. simpl.
    repeat case_match; simplify_eq/=; done.
Qed.

(** The token ["tok"] granted with [expires_in = 3600] at time 0 is
    returned from the cache for 3540 seconds. *)
Lemma get_spotify_access_token_expiry_witness :
  let w := example_world [] (example_net NetError) in
  let w1 := (_get_spotify_access_token example_service w).2 in
  credentials_truthy (spotify_credentials example_service) = true
  /\ (cache_get_token w).1 = Ok JNull
  /\ token_request example_service = Ok (TokenPost "abc:xyz")
  /\ net w (calls w) (TokenPost "abc:xyz") = Response 200 (Some example_token_body)
  /\ (_get_spotify_access_token example_service w).1 = Ok (JStr "tok")
  /\ (forall dt : Q,
        (0 <= dt)%Q -> (dt < 3540)%Q ->
        _get_spotify_access_token example_service (advance dt w1)
        = (Ok (JStr "tok"), advance dt w1)).
Proof.
  intros w w1.
  assert (H1 : credentials_truthy (spotify_credentials example_service) = true)
    by (vm_compute; reflexivity).
  assert (H2 : (cache_get_token w).1 = Ok JNull) by reflexivity.
  assert (H3 : token_request example_service = Ok (TokenPost "abc:xyz"))
    by (vm_compute; reflexivity).
  assert (H4 : net w (calls w) (TokenPost "abc:xyz")
               = Response 200 (Some example_token_body)) by reflexivity.
  assert (H5 : "tok" <> "") by discriminate.
  destruct (get_spotify_access_token_expiry example_service w
              (TokenPost "abc:xyz")
              [("access_token", JStr "tok"); ("expires_in", JInt 3600)]
              "tok" 3600 H1 H2 H3 H4 eq_refl H5 eq_refl)
    as (R1 & _ & _ & _ & R5 & _).
  split; [exact H1|]. split; [exact H2|]. split; [exact H3|].
  split; [exact H4|]. split; [exact R1|exact R5].
Defined.

End TokenCache.

(** ** Lyrics resolver *)

#[local] Instance ids_step_preorder : PreOrder ids_step.
Proof.
  split.
  - by intros w.
  - intros w1 w2 w3 (?&?&?&?&?&?) (?&?&?&?&?&?). unfold ids_step.
    repeat split; congruence.
Qed.

Lemma keeps_weaken {A} (R R' : relation world) (c : M A) :
  (forall w w', R w w' -> R' w w') -> keeps R c -> keeps R' c.
Proof. intros H Hc w. apply H, Hc. Qed.

Lemma ext_ids_step w w' : ext_step w w' -> ids_step w w'.
Proof. intros (Hc&?&?&?&?&?). unfold ids_step. rewrite Hc. done. Qed.

Lemma keeps_save song : keeps ids_step (save song).
Proof.
  intros w. unfold save, ids_step. simpl. repeat split; try done.
  rewrite map_map. apply map_ext. intros s.
  destruct (song_id s =? song_id song) eqn:E; [|done].
  symmetry. by apply Z.eqb_eq.
Qed.

#[local] Hint Resolve keeps_save : steps.

Section Placeholders.

Context (self : LyricsService).

Lemma keeps_genius_lyrics song : keeps ext_step (_get_genius_lyrics self song).
Proof. unfold _get_genius_lyrics. step_through. Qed.


Lemma keeps_external_lyrics song : keeps ext_step (_get_external_lyrics self song).
Proof.
  unfold _get_external_lyrics.
  destruct (Py.truthy _); [|step_through].
  apply keeps_bind; [apply _|apply keeps_genius_lyrics|intros ?]. step_through.
Qed.



Lemma keeps_spotify_lyrics song : keeps ids_step (_get_spotify_lyrics self song).
Proof.
  unfold _get_spotify_lyrics.
  apply keeps_bind; [apply _| |intros [info|]]; [|step_through..].
  eapply keeps_weaken; [apply ext_ids_step|apply keeps_track_info].
Qed.

Lemma keeps_lyrics_from_sources song :
  keeps ids_step (_get_lyrics_from_sources self song).
Proof.
  unfold _get_lyrics_from_sources.
  destruct (has_stored_lyrics song); [step_through|].
  apply keeps_bind; [apply _|apply keeps_spotify_lyrics|intros [song' o]].
  destruct (str_truthy o); [step_through|].
  apply keeps_bind; [apply _| |intros o']; [|step_through].
  eapply keeps_weaken; [apply ext_ids_step|apply keeps_external_lyrics].
Qed.

End Placeholders.

Section Resolver.

Context (self : LyricsService).

Lemma load_total r : exists c, _load_spotify_credentials r = Ok c.
Proof. destruct r as [| |text]; [by eexists..|]. rewrite load_content. by eexists. Qed.

Lemma init_total w :
  exists service,
    LyricsService_init w = (Ok service, w)
    /\ genius_api_key service = GENIUS_API_KEY w
    /\ _load_spotify_credentials (spotify_txt w) = Ok (spotify_credentials service).
Proof.
  unfold LyricsService_init. destruct (load_total (spotify_txt w)) as [c ->].
  by eexists.
Qed.






End Resolver.


Section Caching.



End Caching.


Section Success.


End Success.


(** ** Write-backs onto the catalog *)

Section WriteBack.

Context (self : LyricsService).







End WriteBack.



(** ** The metadata step on a malformed artist name *)

(** C3, at a failing input.  When the search finds a track whose artist
    has a null name, the track search returns the structure with that
    name, [_get_spotify_lyrics] raises [TypeError] instead of returning
    [None], and so does [get_lyrics]. *)
Theorem spotify_lyrics_raises_on_null_artist :
  let song := example_song 1 None None in
  (_get_spotify_track_info example_service song null_artist_world).1
  = Ok (Some {| ti_spotify_id := JStr "t1"; ti_name := JStr "Song";
                ti_artists := [JNull]; ti_album := JStr "";
                ti_preview_url := JNull; ti_external_urls := JDict [];
                ti_duration_ms := JNull; ti_popularity := JNull;
                ti_audio_features := None |})
  /\ (_get_spotify_lyrics example_service song null_artist_world).1
     = Raise TypeError
  /\ (get_lyrics example_service 1 null_artist_world).1 = Raise TypeError.
Proof. intros song. repeat split; vm_compute; reflexivity. Qed.

(** ** The HTTP boundary *)

Section Views.

(** The lyrics view answers a song id the catalog does not have with
    status 200 and the error response. *)
Lemma lyrics_view_miss sid w :
  lookup_song sid w = None ->
  get_lyrics_view GET sid w
  = (Ok {| status := 200;
           content := LyricsBody (_error_response "Song not found") |}, w).
Proof.
  intros H. unfold get_lyrics_view, try_except, bind, get_song_lyrics, bind.
  destruct (init_total w) as (service & -> & _).
  unfold get_lyrics, objects_get. unfold lookup_song in H. by rewrite H.
Qed.

(** The detail view answers it with status 404. *)
Lemma detail_view_miss sid w :
  sid <> 0 -> lookup_song sid w = None ->
  get_song_details_with_spotify_data (Some sid) w
  = (Ok {| status := 404; content := ErrorBody "Song not found" |}, w).
Proof.
  intros Hs H. unfold get_song_details_with_spotify_data, objects_get. simpl.
  destruct (sid =? 0) eqn:E; [by apply Z.eqb_eq in E|]. simpl.
  unfold lookup_song in H. by rewrite H.
Qed.

(** The lyrics view never raises: an exception of the resolution
    becomes status 500. *)
Lemma lyrics_view_total method sid : total (get_lyrics_view method sid).
Proof.
  destruct method; simpl; try apply total_ret.
  apply total_try. intros e. apply total_ret.
Qed.

End Views.

(** C1, at a failing input.  For song id 999 and an empty catalog the
    lyrics view answers with status 200 and the error response, where the
    detail view answers 404; and for the song whose track has an artist
    with a null name the lyrics view answers with status 500. *)
Theorem lyrics_view_status_on_miss :
  let w := example_world [] (example_net NetError) in
  (get_lyrics_view GET 999 w).1
  = Ok {| status := 200;
          content := LyricsBody (_error_response "Song not found") |}
  /\ (get_song_details_with_spotify_data (Some 999) w).1
     = Ok {| status := 404; content := ErrorBody "Song not found" |}
  /\ (get_lyrics_view GET 1 null_artist_world).1
     = Ok {| status := 500; content := FailureBody TypeError |}.
Proof.
  intros w. split; [|split].
  - by rewrite lyrics_view_miss.
  - by rewrite detail_view_miss.
  - vm_compute. reflexivity.
Qed.

(** ** Batch enrichment *)

Section Batch.

Context (self : LyricsService).






End Batch.


(** * Further properties *)

(** ** How many requests a call sends *)

Section RequestCount.

Lemma sends_ret {A} n (a : A) : sends n (ret a).
Proof. intros w. exists []. simpl. rewrite app_nil_r. split; [done|lia]. Qed.

Lemma sends_lift {A} n (r : res A) : sends n (lift r).
Proof. intros w. exists []. simpl. rewrite app_nil_r. split; [done|lia]. Qed.

Lemma sends_same {A} n (c : M A) :
  (forall w, calls (c w).2 = calls w) -> sends n c.
Proof. intros H w. exists []. rewrite H, app_nil_r. split; [done|simpl; lia]. Qed.

Lemma sends_send n req : (1 <= n)%nat -> sends n (send req).
Proof.
  intros Hn w. exists [req]. unfold send.
  destruct (net w (calls w) req); simpl; (split; [done|lia]).
Qed.

Lemma sends_bind {A B} n m p (c : M A) (k : A -> M B) :
  sends n c -> (forall a, sends m (k a)) -> (n + m <= p)%nat ->
  sends p (bind c k).
Proof.
  intros Hc Hk Hp w. unfold bind. destruct (Hc w) as (l1 & E1 & L1).
  destruct (c w) as [[a|e] w1]; simpl in *.
  - destruct (Hk a w1) as (l2 & E2 & L2). exists (l1 ++ l2)%list.
    rewrite E2, E1, app_assoc, length_app. split; [done|lia].
  - exists l1. split; [done|lia].
Qed.

Lemma sends_try {A} n m p (body : M A) (handler : exn -> M A) :
  sends n body -> (forall e, sends m (handler e)) -> (n + m <= p)%nat ->
  sends p (try_except body handler).
Proof.
  intros Hc Hk Hp w. unfold try_except. destruct (Hc w) as (l1 & E1 & L1).
  destruct (body w) as [[a|e] w1]; simpl in *.
  - exists l1. split; [done|lia].
  - destruct (Hk e w1) as (l2 & E2 & L2). exists (l1 ++ l2)%list.
    rewrite E2, E1, app_assoc, length_app. split; [done|lia].
Qed.

Lemma sends_init n : sends n LyricsService_init.
Proof.
  apply sends_same. intros w. destruct (init_total w) as (s & -> & _). done.
Qed.

Context (self : LyricsService).

Lemma sends_access_token : sends 1 (_get_spotify_access_token self).
Proof.
  unfold _get_spotify_access_token.
  destruct (negb _); [apply sends_ret|].
  apply (sends_bind 0 1); [by apply sends_same|intros tok|lia].
  destruct (Py.truthy tok); [apply sends_ret|].
  apply (sends_try 1 0); [|intros; apply sends_ret|lia].
  apply (sends_bind 0 1); [apply sends_lift|intros req|lia].
  apply (sends_bind 1 0); [by apply sends_send|intros [st b]|lia].
  destruct (st =? 200); [|apply sends_ret].
  repeat (apply (sends_bind 0 0); [first [apply sends_lift|by apply sends_same]
                                  |intros ?|lia]).
  apply sends_ret.
Qed.

Lemma sends_track_info song : sends 2 (_get_spotify_track_info self song).
Proof.
  unfold _get_spotify_track_info.
  apply (sends_bind 1 1); [apply sends_access_token|intros tok|lia].
  destruct (negb _); [apply sends_ret|].
  apply (sends_try 1 0); [|intros; apply sends_ret|lia].
  apply (sends_bind 1 0); [by apply sends_send|intros [st b]|lia].
  destruct (st =? 200); [|apply sends_ret].
  destruct (response_json b); [apply sends_lift|apply sends_ret].
Qed.

Lemma sends_comprehensive song :
  sends 4 (_get_comprehensive_spotify_data self song).
Proof.
  unfold _get_comprehensive_spotify_data.
  apply (sends_bind 2 2); [apply sends_track_info|intros [info|]|lia];
    [|apply sends_ret].
  destruct (negb _); [apply sends_ret|].
  apply (sends_bind 1 1); [apply sends_access_token|intros tok|lia].
  destruct (negb _); [apply sends_ret|].
  apply (sends_try 1 0); [|intros; apply sends_ret|lia].
  apply (sends_bind 1 0); [by apply sends_send|intros [st b]|lia].
  destruct (st =? 200); [|apply sends_ret].
  destruct (response_json b); [|apply sends_ret].
  destruct (negb _); apply sends_ret.
Qed.

Lemma sends_genius_lyrics song : sends 1 (_get_genius_lyrics self song).
Proof.
  unfold _get_genius_lyrics.
  apply (sends_try 1 0); [|intros; apply sends_ret|lia].
  apply (sends_bind 1 0); [by apply sends_send|intros [st b]|lia].
  destruct (st =? 200); [|apply sends_ret].
  repeat (apply (sends_bind 0 0); [apply sends_lift|intros ?|lia]).
  destruct (Py.truthy _); [|apply sends_ret].
  repeat (apply (sends_bind 0 0); [apply sends_lift|intros ?|lia]).
  destruct (Py.truthy _); apply sends_ret.
Qed.

Lemma sends_external_lyrics song : sends 1 (_get_external_lyrics self song).
Proof.
  unfold _get_external_lyrics. destruct (Py.truthy _); [|apply sends_ret].
  apply (sends_bind 1 0); [apply sends_genius_lyrics|intros o|lia].
  destruct (str_truthy o); apply sends_ret.
Qed.

Lemma sends_save n song : sends n (save song).
Proof. by apply sends_same. Qed.

Lemma sends_spotify_lyrics song : sends 2 (_get_spotify_lyrics self song).
Proof.
  unfold _get_spotify_lyrics.
  apply (sends_bind 2 0); [apply sends_track_info|intros [info|]|lia];
    [|apply sends_ret].
  apply (sends_bind 0 0); [|intros song'|lia].
  - destruct (spotify_track_id song); [|apply sends_ret].
    apply (sends_bind 0 0); [apply sends_save|intros; apply sends_ret|lia].
  - apply (sends_bind 0 0); [apply sends_lift|intros; apply sends_ret|lia].
Qed.

Lemma sends_lyrics_from_sources song :
  sends 3 (_get_lyrics_from_sources self song).
Proof.
  unfold _get_lyrics_from_sources.
  destruct (has_stored_lyrics song); [apply sends_ret|].
  apply (sends_bind 2 1); [apply sends_spotify_lyrics|intros [song' o]|lia].
  destruct (str_truthy o).
  - apply (sends_bind 0 0); [apply sends_save|intros; apply sends_ret|lia].
  - apply (sends_bind 1 0); [apply sends_external_lyrics|intros o'|lia].
    destruct (str_truthy o'); [|apply sends_ret].
    apply (sends_bind 0 0); [apply sends_save|intros; apply sends_ret|lia].
Qed.

Lemma sends_get_lyrics sid : sends 3 (get_lyrics self sid).
Proof.
  intros w. unfold get_lyrics, objects_get.
  destruct (find _ (catalog w)) as [song|].
  - revert w. change (sends 3
      (bind (cache_get_lyrics sid) (fun cached_lyrics =>
         match cached_lyrics with
         | Some r => ret r
         | None =>
             bind (_get_lyrics_from_sources self song) (fun lyrics_data =>
             bind (cache_set_lyrics sid lyrics_data lyrics_ttl) (fun _ =>
             ret lyrics_data))
         end))).
    apply (sends_bind 0 3); [by apply sends_same|intros [r|]|lia];
      [apply sends_ret|].
    apply (sends_bind 3 0); [apply sends_lyrics_from_sources|intros r|lia].
    apply (sends_bind 0 0); [by apply sends_same|intros; apply sends_ret|lia].
  - exists []. simpl. rewrite app_nil_r. split; [done|lia].
Qed.

Lemma sends_enrich song : sends 4 (enrich self song).
Proof.
  unfold enrich.
  apply (sends_try 4 0); [|intros; apply sends_ret|lia].
  apply (sends_bind 4 0); [apply sends_comprehensive|intros [info|]|lia];
    [|apply sends_ret].
  apply (sends_bind 0 0); [apply sends_lift|intros; apply sends_ret|lia].
Qed.

Lemma sends_enrich_all songs :
  sends (4 * length songs) (enrich_all self songs).
Proof.
  induction songs as [|song rest IH]; simpl enrich_all; [apply sends_ret|].
  apply (sends_bind 4 (4 * length rest)); [apply sends_enrich|intros sd|simpl; lia].
  apply (sends_bind (4 * length rest) 0); [apply IH|intros; apply sends_ret|lia].
Qed.

End RequestCount.

(** X1.  A lyrics lookup sends at most three external requests (a token
    exchange, a track search, a search of the secondary provider) and
    removes nothing from the request log, whichever entry point is used:
    the service method, the convenience function or the forced refresh. *)
Theorem lyrics_lookup_request_bound self sid :
  sends 3 (get_lyrics self sid)
  /\ sends 3 (get_song_lyrics sid)
  /\ sends 3 (refresh_lyrics_cache sid).
Proof.
  split; [apply sends_get_lyrics|]. split.
  - unfold get_song_lyrics.
    apply (sends_bind 0 3); [apply sends_init|intros s|lia].
    apply sends_get_lyrics.
  - unfold refresh_lyrics_cache.
    apply (sends_bind 0 3); [by apply sends_same|intros _|lia].
    apply (sends_bind 0 3); [apply sends_init|intros s|lia].
    apply sends_get_lyrics.
Qed.

(** X2.  Enriching one record sends at most four external requests (at
    most two token exchanges, a track search and an audio-features
    request), and the list view sends at most four per record of the
    catalog. *)
Theorem list_view_request_bound :
  (forall self song, sends 4 (_get_comprehensive_spotify_data self song))
  /\ (forall self songs, sends (4 * length songs) (enrich_all self songs))
  /\ (forall w, exists l,
        calls (get_song_details_with_spotify_data None w).2 = (calls w ++ l)%list
        /\ (length l <= 4 * length (catalog w))%nat).
Proof.
  split; [apply sends_comprehensive|]. split; [apply sends_enrich_all|].
  intros w. unfold get_song_details_with_spotify_data, objects_all, bind. simpl.
  destruct (init_total w) as (service & -> & _).
  destruct (sends_enrich_all service (catalog w) w) as (l & E & L).
  exists l. destruct (enrich_all service (catalog w) w) as [[infos|e] w1];
    simpl in *; by split.
Qed.

(** ** Token exchange: failures and short-lived tokens *)

Section TokenEdges.

Lemma minus_raises v n e : Py.minus v n = Raise e -> e = TypeError.
Proof. destruct v; simpl; congruence. Qed.

(** X3.  With credentials and no live cached token: when the token
    endpoint times out, fails, answers with a status other than 200, with
    a body that is not a JSON dict, or with an [expires_in] that is not a
    number (even next to a valid [access_token]), the call returns [None],
    its only effect is the logged request, and nothing is cached, so the
    next call tries the exchange again.  When the credentials do not
    encode as ASCII, the call returns [None] without any request. *)
Theorem failed_exchange_caches_nothing self w :
  credentials_truthy (spotify_credentials self) = true ->
  (cache_get_token w).1 = Ok JNull ->
  (forall req,
      token_request self = Ok req ->
      exchange_fails (net w (calls w) req) ->
      _get_spotify_access_token self w
      = (Ok JNull, set_calls (calls w ++ [req]) w))
  /\ (forall e,
        token_request self = Raise e ->
        _get_spotify_access_token self w = (Ok JNull, w)).
Proof.
  intros Hcred Hmiss.
  assert (Hget : cache_get_token w = (Ok JNull, w)).
  { unfold cache_get_token in *. simpl in Hmiss. by injection Hmiss as ->. }
  split.
  - intros req Hreq Hfail.
    unfold _get_spotify_access_token. rewrite Hcred. simpl.
    unfold bind at 1. rewrite Hget. simpl.
    unfold try_except, bind, lift, send. rewrite Hreq. simpl.
    destruct (net w (calls w) req) as [| |st b]; simpl; try done.
    destruct (st =? 200) eqn:Est; simpl; [|done].
    apply Z.eqb_eq in Est.
    destruct Hfail as [H|[->|[(v & -> & Hv)|(d & -> & Hd)]]]; simpl; try done.
    + by destruct v.
    + unfold field_or in Hd.
      destruct (Py.assoc "expires_in" d) as [x|]; simpl in Hd |- *;
        [|discriminate Hd].
      destruct (Py.assoc "access_token" d); simpl; by rewrite Hd.
  - intros e Hreq.
    unfold _get_spotify_access_token. rewrite Hcred. simpl.
    unfold bind at 1. rewrite Hget. simpl.
    unfold try_except, bind, lift. by rewrite Hreq.
Qed.

(** X4.  A token granted with [expires_in] of 60 seconds or less is
    returned to the caller but is never served from the cache: at every
    later time the cache lookup misses. *)
Theorem short_lived_token_never_served self w req d tok n :
  credentials_truthy (spotify_credentials self) = true ->
  (cache_get_token w).1 = Ok JNull ->
  token_request self = Ok req ->
  net w (calls w) req = Response 200 (Some (JDict d)) ->
  Py.assoc "access_token" d = Some (JStr tok) ->
  Py.assoc "expires_in" d = Some (JInt n) ->
  n <= 60 ->
  (_get_spotify_access_token self w).1 = Ok (JStr tok)
  /\ forall dt : Q,
       (0 <= dt)%Q ->
       (cache_get_token (advance dt (_get_spotify_access_token self w).2)).1
       = Ok JNull.
Proof.
  intros Hcred Hmiss Hreq Hnet Htok Hexp Hn.
  assert (Hget : cache_get_token w = (Ok JNull, w)).
  { unfold cache_get_token in *. simpl in Hmiss. by injection Hmiss as ->. }
  assert (Hrun : _get_spotify_access_token self w
                 = (Ok (JStr tok),
                    set_cache {| token_entry := Some (JStr tok, (now w + inject_Z (n - 60))%Q);
                                 lyrics_entries := lyrics_entries (cache w) |}
                      (set_calls (calls w ++ [req]) w))).
  { unfold _get_spotify_access_token. rewrite Hcred. simpl.
    unfold bind at 1. rewrite Hget. simpl.
    unfold try_except, bind, lift, send. rewrite Hreq. simpl.
    rewrite Hnet. simpl. rewrite Htok, Hexp. done. }
  rewrite Hrun. split; [done|]. intros dt Hdt. simpl.
  assert (Hle : (inject_Z (n - 60) <= dt)%Q).
  { apply Qle_trans with (y := inject_Z 0); [|done].
    rewrite <- Zle_Qle. lia. }
  by rewrite (live_after _ _ _ _ Hle).
Qed.

End TokenEdges.

Lemma failed_exchange_caches_nothing_witness :
  let w := example_world [] (fun _ _ => Response 503 None) in
  credentials_truthy (spotify_credentials example_service) = true
  /\ (cache_get_token w).1 = Ok JNull
  /\ token_request example_service = Ok (TokenPost "abc:xyz")
  /\ exchange_fails (net w (calls w) (TokenPost "abc:xyz"))
  /\ _get_spotify_access_token example_service w
     = (Ok JNull, set_calls [TokenPost "abc:xyz"] w).
Proof.
  intros w.
  assert (H1 : credentials_truthy (spotify_credentials example_service) = true)
    by (vm_compute; reflexivity).
  assert (H2 : (cache_get_token w).1 = Ok JNull) by reflexivity.
  assert (H3 : token_request example_service = Ok (TokenPost "abc:xyz"))
    by (vm_compute; reflexivity).
  assert (H4 : exchange_fails (net w (calls w) (TokenPost "abc:xyz")))
    by (left; discriminate).
  split; [exact H1|]. split; [exact H2|]. split; [exact H3|]. split; [exact H4|].
  exact (proj1 (failed_exchange_caches_nothing example_service w H1 H2)
           (TokenPost "abc:xyz") H3 H4).
Defined.

Lemma short_lived_token_never_served_witness :
  let d := [("access_token", JStr "tok"); ("expires_in", JInt 30)] in
  let w := example_world [] (fun _ _ => Response 200 (Some (JDict d))) in
  credentials_truthy (spotify_credentials example_service) = true
  /\ (cache_get_token w).1 = Ok JNull
  /\ token_request example_service = Ok (TokenPost "abc:xyz")
  /\ 30 <= 60
  /\ (_get_spotify_access_token example_service w).1 = Ok (JStr "tok").
Proof.
  intros d w.
  assert (H1 : credentials_truthy (spotify_credentials example_service) = true)
    by (vm_compute; reflexivity).
  assert (H2 : (cache_get_token w).1 = Ok JNull) by reflexivity.
  assert (H3 : token_request example_service = Ok (TokenPost "abc:xyz"))
    by (vm_compute; reflexivity).
  assert (H4 : 30 <= 60) by lia.
  split; [exact H1|]. split; [exact H2|]. split; [exact H3|]. split; [exact H4|].
  exact (proj1 (short_lived_token_never_served example_service w
                  (TokenPost "abc:xyz") d "tok" 30 H1 H2 H3 eq_refl eq_refl
                  eq_refl H4)).
Defined.

(** ** A service without credentials *)

Section Unconfigured.

Lemma enrich_all_unconfigured service songs w :
  (forall song w', _get_comprehensive_spotify_data service song w' = (Ok None, w')) ->
  enrich_all service songs w = (Ok (map (fun s => song_info_of s None) songs), w).
Proof.
  intros H. revert w. induction songs as [|song rest IH]; intros w; [done|].
  simpl. unfold bind, enrich, try_except, bind. rewrite H. simpl. by rewrite IH.
Qed.

(** X5.  When the credentials file is absent, unreadable or lacks a
    required key, the service built from it never talks to the external
    service: the token call, the track search and the enrichment return
    [None] and leave the world as it is, whatever the cache holds, and the
    list view returns every record of the catalog with [spotify_data]
    [None] without sending a request. *)
Theorem unconfigured_service_is_silent w :
  _load_spotify_credentials (spotify_txt w) = Ok None ->
  exists service,
    LyricsService_init w = (Ok service, w)
    /\ (forall w', _get_spotify_access_token service w' = (Ok JNull, w'))
    /\ (forall song w', _get_spotify_track_info service song w' = (Ok None, w'))
    /\ (forall song w',
          _get_comprehensive_spotify_data service song w' = (Ok None, w'))
    /\ get_song_details_with_spotify_data None w
       = (Ok {| status := 200;
                content := SongsBody (map (fun s => song_info_of s None)
                                        (catalog w)) |}, w).
Proof.
  intros Hload.
  destruct (init_total w) as (service & Hinit & _ & Hc).
  rewrite Hload in Hc. injection Hc as Hc.
  exists service. split; [done|].
  assert (Htok : forall w', _get_spotify_access_token service w' = (Ok JNull, w')).
  { intros w'. unfold _get_spotify_access_token. by rewrite <- Hc. }
  assert (Htrack : forall song w',
             _get_spotify_track_info service song w' = (Ok None, w')).
  { intros song w'. unfold _get_spotify_track_info, bind. by rewrite Htok. }
  assert (Hcomp : forall song w',
             _get_comprehensive_spotify_data service song w' = (Ok None, w')).
  { intros song w'. unfold _get_comprehensive_spotify_data, bind.
    by rewrite Htrack. }
  repeat split; try done.
  unfold get_song_details_with_spotify_data, objects_all, bind. simpl.
  rewrite Hinit. by rewrite (enrich_all_unconfigured _ _ _ Hcomp).
Qed.

End Unconfigured.

Lemma unconfigured_service_is_silent_witness :
  let w := unconfigured_world [example_song 1 None None] in
  _load_spotify_credentials (spotify_txt w) = Ok None
  /\ get_song_details_with_spotify_data None w
     = (Ok {| status := 200;
              content := SongsBody [song_info_of (example_song 1 None None) None] |},
        w).
Proof.
  intros w.
  assert (H : _load_spotify_credentials (spotify_txt w) = Ok None) by reflexivity.
  split; [exact H|].
  destruct (unconfigured_service_is_silent w H) as (service & _ & _ & _ & _ & R).
  exact R.
Defined.

(** ** Track search and enrichment: what is found and what is kept *)

Section SearchEdges.

(** X6.  The track search sends its request only with a token: without
    one it returns [None] in the world the token call left.  With a
    token, a search that times out, fails, is answered with a status
    other than 200, with a body that is not JSON, with an empty item list
    or with a first item that is not a dict returns [None], and its only
    effect beyond the token call is the logged search request. *)
Theorem track_search_not_found self song w tok :
  (_get_spotify_access_token self w).1 = Ok tok ->
  let w1 := (_get_spotify_access_token self w).2 in
  (Py.truthy tok = false ->
   _get_spotify_track_info self song w = (Ok None, w1))
  /\ (Py.truthy tok = true ->
      search_misses (net w1 (calls w1) (SearchGet tok (search_query song))) ->
      _get_spotify_track_info self song w
      = (Ok None,
         set_calls (calls w1 ++ [SearchGet tok (search_query song)]) w1)).
Proof.
  intros Htok w1. subst w1.
  unfold _get_spotify_track_info, bind.
  destruct (_get_spotify_access_token self w) as [r w1]. simpl in *. subst r.
  split; [by intros ->|]. intros -> Hmiss. simpl.
  unfold try_except, bind, send, ret, lift.
  destruct (net w1 (calls w1) _) as [| |st b]; simpl; try done.
  destruct (st =? 200) eqn:Est; simpl; [|done]. apply Z.eqb_eq in Est.
  destruct Hmiss as [H|[->|[(d & d' & -> & H1 & H2)
                           |(d & d' & x & l & -> & H1 & H2 & Hx)]]];
    try done.
  - assert (E : first_track (JDict d) = Ok None).
    { unfold first_track, field_or in *. cbn [Py.get res_bind].
      destruct (Py.assoc "tracks" d) as [t|]; simpl in H1;
        [subst t|injection H1 as <-; done].
      cbn [Py.get res_bind].
      destruct (Py.assoc "items" d') as [i|]; simpl in H2; [subst i|]; done. }
    cbn [response_json]. by rewrite E.
  - assert (E : first_track (JDict d) = Ok None).
    { unfold first_track, field_or in *. cbn [Py.get res_bind].
      destruct (Py.assoc "tracks" d) as [t|]; simpl in H1;
        [subst t|injection H1 as <-; discriminate H2].
      cbn [Py.get res_bind].
      destruct (Py.assoc "items" d') as [i|]; simpl in H2;
        [subst i|discriminate H2]. simpl. by rewrite Hx. }
    cbn [response_json]. by rewrite E.
Qed.


(** X8.  The list view reads the album image from the [album] entry of
    the track structure, which holds the album's name: unless that name
    is itself a dict, building the [spotify_data] of a found track never
    raises and its [album_image] is [None], whatever images the search
    returned; the other fields are those of the track. *)
Theorem album_image_is_never_read d info :
  extract_track_info (JDict d) = Ok info ->
  (forall a n, Py.assoc "album" d = Some (JDict a) ->
               Py.assoc "name" a = Some n -> Py.is_dict n = false) ->
  exists url,
    extract_spotify_data info
    = Ok {| sd_spotify_id := ti_spotify_id info;
            sd_preview_url := ti_preview_url info;
            sd_external_url := url;
            sd_popularity := ti_popularity info;
            sd_album_image := JNull;
            sd_duration_ms := ti_duration_ms info;
            sd_audio_features := [] |}.
Proof.
  intros Hinfo Hname.
  destruct (extract_track_info_fields d info Hinfo)
    as (_ & _ & _ & Halbum & _ & _ & _ & _ & Hfeat).
  assert (Hnd : Py.is_dict (ti_album info) = false).
  { rewrite Halbum.
    destruct (Py.assoc "album" d) as [[| | | | | |a]|] eqn:Ea; try done.
    unfold field_or. destruct (Py.assoc "name" a) as [n|] eqn:En; [|done].
    simpl. by eapply Hname. }
  unfold extract_spotify_data. rewrite Hnd, Hfeat. simpl.
  destruct (ti_external_urls info) as [| | | | | |u]; simpl; by eexists.
Qed.

End SearchEdges.

Lemma track_search_not_found_witness :
  let w := example_world [] (example_net (Response 429 None)) in
  let song := example_song 1 None None in
  let w1 := (_get_spotify_access_token example_service w).2 in
  (_get_spotify_access_token example_service w).1 = Ok (JStr "tok")
  /\ Py.truthy (JStr "tok") = true
  /\ search_misses (net w1 (calls w1) (SearchGet (JStr "tok") (search_query song)))
  /\ (_get_spotify_track_info example_service song w).1 = Ok None.
Proof.
  intros w song w1.
  assert (H1 : (_get_spotify_access_token example_service w).1 = Ok (JStr "tok"))
    by (vm_compute; reflexivity).
  assert (H3 : search_misses
                 (net w1 (calls w1) (SearchGet (JStr "tok") (search_query song))))
    by (left; discriminate).
  split; [exact H1|]. split; [reflexivity|]. split; [exact H3|].
  exact (f_equal fst
           (proj2 (track_search_not_found example_service song w (JStr "tok") H1)
              eq_refl H3)).
Defined.


Lemma album_image_is_never_read_witness :
  let d := [("id", JStr "t1");
            ("album", JDict [("name", JStr "LP");
                             ("images", JList [JDict [("url", JStr "http://i")]])])] in
  exists info,
    extract_track_info (JDict d) = Ok info
    /\ exists url,
         extract_spotify_data info
         = Ok {| sd_spotify_id := ti_spotify_id info;
                 sd_preview_url := ti_preview_url info;
                 sd_external_url := url;
                 sd_popularity := ti_popularity info;
                 sd_album_image := JNull;
                 sd_duration_ms := ti_duration_ms info;
                 sd_audio_features := [] |}.
Proof.
  intros d. eexists.
  assert (H : extract_track_info (JDict d)
              = Ok {| ti_spotify_id := JStr "t1"; ti_name := JStr "";
                      ti_artists := []; ti_album := JStr "LP";
                      ti_preview_url := JNull; ti_external_urls := JDict [];
                      ti_duration_ms := JNull; ti_popularity := JNull;
                      ti_audio_features := None |}) by reflexivity.
  split; [exact H|].
  apply (album_image_is_never_read d _ H).
  intros a n Ha Hn. simpl in Ha. injection Ha as <-. simpl in Hn.
  by injection Hn as <-.
Defined.

(** ** Lyrics: the secondary provider, the cache and the batch update *)

Section LyricsEdges.

(** X9.  The secondary-provider step never supplies lyrics and never
    raises.  Without a configured key it does nothing; with one it sends
    exactly one search, for the song's title and artist name, and changes
    nothing else. *)
Theorem external_lyrics_is_a_placeholder self song w :
  (Py.truthy (genius_api_key self) = false ->
   _get_external_lyrics self song w = (Ok None, w))
  /\ (Py.truthy (genius_api_key self) = true ->
      _get_external_lyrics self song w
      = (Ok None,
         set_calls (calls w ++ [GeniusSearchGet (genius_api_key self)
                                  (title song +:+ " " +:+ artist_name (artist song))])
           w)).
Proof.
  unfold _get_external_lyrics. split; intros ->; [done|].
  unfold bind, _get_genius_lyrics, try_except, bind, send, lift, ret,
    _scrape_genius_lyrics.
  repeat case_match; simplify_eq/=; done.
Qed.


(** X11.  A lookup or a refresh for one song leaves the cached lyrics of
    every other song as they were, and a lookup that raises leaves all of
    them as they were: a failed resolution is not cached. *)
Theorem lyrics_cache_is_per_song self sid w :
  (forall sid', sid' <> sid ->
     lyrics_entries (cache (get_lyrics self sid w).2) !! sid'
     = lyrics_entries (cache w) !! sid')
  /\ (forall sid', sid' <> sid ->
        lyrics_entries (cache (refresh_lyrics_cache sid w).2) !! sid'
        = lyrics_entries (cache w) !! sid')
  /\ (forall e, (get_lyrics self sid w).1 = Raise e ->
        lyrics_entries (cache (get_lyrics self sid w).2)
        = lyrics_entries (cache w)).
Proof.
  assert (Hget : forall s w0,
    (forall sid', sid' <> sid ->
       lyrics_entries (cache (get_lyrics s sid w0).2) !! sid'
       = lyrics_entries (cache w0) !! sid')
    /\ (forall e, (get_lyrics s sid w0).1 = Raise e ->
          lyrics_entries (cache (get_lyrics s sid w0).2)
          = lyrics_entries (cache w0))).
  { intros s w0. unfold get_lyrics, objects_get.
    destruct (find _ (catalog w0)) as [song|]; [|done].
    unfold bind, cache_get_lyrics. simpl.
    destruct (lyrics_entries (cache w0) !! sid ≫= live (now w0)); [done|].
    pose proof (keeps_lyrics_from_sources s song w0) as (_&Hl&_).
    destruct (_get_lyrics_from_sources s song w0) as [[r1|e] w1]; simpl in *.
    - split; [|done]. intros sid' Hne. rewrite Hl. by rewrite lookup_insert_ne.
    - split; [|done]. intros sid' Hne. by rewrite Hl. }
  split; [apply Hget|]. split; [|apply Hget].
  intros sid' Hne. unfold refresh_lyrics_cache, bind. simpl.
  set (w0 := set_cache _ w).
  destruct (init_total w0) as (service & -> & _).
  rewrite (proj1 (Hget service w0) sid' Hne). simpl.
  by rewrite lookup_delete_ne.
Qed.




End LyricsEdges.

Lemma external_lyrics_is_a_placeholder_witness :
  let w := example_world [] (example_net NetError) in
  let song := example_song 1 None None in
  Py.truthy (genius_api_key example_service) = false
  /\ _get_external_lyrics example_service song w = (Ok None, w).
Proof.
  intros w song. split; [reflexivity|].
  exact (proj1 (external_lyrics_is_a_placeholder example_service song w) eq_refl).
Defined.


Lemma lyrics_cache_is_per_song_witness :
  let w := example_world [example_song 1 None None] (example_net NetError) in
  2 <> 1
  /\ lyrics_entries (cache (get_lyrics example_service 1 w).2) !! 2
     = lyrics_entries (cache w) !! 2.
Proof.
  intros w.
  assert (H : 2 <> 1) by lia.
  split; [exact H|].
  exact (proj1 (lyrics_cache_is_per_song example_service 1 w) 2 H).
Defined.

(** ** Views: the refresh gate and the detail view *)

Section ViewEdges.

(** X13.  The refresh view never raises.  A request that is not a POST is
    answered 405 and an anonymous POST is redirected (302), both without
    touching the world: only an authenticated POST evicts a cache entry.
    An authenticated POST is answered 200 or 500; for a song id the
    catalog does not have it is answered 200 with the error response, and
    the song's cache entry is gone. *)
Theorem refresh_view_gate sid w :
  (forall method authenticated,
      exists resp, (refresh_lyrics_view method authenticated sid w).1 = Ok resp)
  /\ (forall method authenticated,
        method <> POST ->
        refresh_lyrics_view method authenticated sid w
        = (Ok {| status := 405; content := ErrorBody "" |}, w))
  /\ refresh_lyrics_view POST false sid w
     = (Ok {| status := 302; content := ErrorBody "" |}, w)
  /\ (forall resp,
        (refresh_lyrics_view POST true sid w).1 = Ok resp ->
        status resp = 200 \/ status resp = 500)
  /\ (lookup_song sid w = None ->
      exists w',
        refresh_lyrics_view POST true sid w
        = (Ok {| status := 200;
                 content := LyricsBody (_error_response "Song not found") |}, w')
        /\ lyrics_entries (cache w') = delete sid (lyrics_entries (cache w))
        /\ catalog w' = catalog w /\ calls w' = calls w).
Proof.
  split; [|split; [|split; [|split]]].
  - intros [] [] ; simpl; try (by eexists).
    apply total_try. intros e. apply total_ret.
  - by intros [] auth H.
  - done.
  - intros resp. simpl. unfold try_except, bind, ret.
    destruct (refresh_lyrics_cache sid w) as [[r|e] w1]; simpl;
      intros [= <-]; simpl; auto.
  - intros Hmiss. simpl.
    unfold try_except, bind, refresh_lyrics_cache, bind. simpl.
    set (w0 := set_cache _ w).
    destruct (init_total w0) as (service & -> & _).
    unfold get_lyrics, objects_get. unfold lookup_song in Hmiss.
    simpl. rewrite Hmiss. simpl. by exists w0.
Qed.


End ViewEdges.

Lemma refresh_view_gate_witness :
  let w := example_world [] (example_net NetError) in
  GET <> POST
  /\ refresh_lyrics_view GET true 1 w
     = (Ok {| status := 405; content := ErrorBody "" |}, w).
Proof.
  intros w.
  assert (H : GET <> POST) by discriminate.
  split; [exact H|].
  exact (proj1 (proj2 (refresh_view_gate 1 w)) GET true H).
Defined.


(** ** Stream analytics *)

Section StreamAnalytics.

Context (cal : Calendar) (streams : list Stream).

Lemma filter_length_mono {A} (P Q : A -> bool) (l : list A) :
  (forall x, P x = true -> Q x = true) ->
  (length (List.filter P l) <= length (List.filter Q l))%nat.
Proof.
  intros H. induction l as [|x l IH]; simpl; [lia|].
  destruct (P x) eqn:EP.
  - rewrite (H x EP). simpl. lia.
  - destruct (Q x); simpl; lia.
Qed.

Lemma distinct_length_mono (l k : list Z) :
  (forall x, x ∈ l -> x ∈ k) ->
  (length (remove_dups l) <= length (remove_dups k))%nat.
Proof.
  intros H. apply submseteq_length, NoDup_submseteq; [apply NoDup_remove_dups|].
  intros x. rewrite !elem_of_remove_dups. apply H.
Qed.

Lemma distinct_length_le (l : list Z) : (length (remove_dups l) <= length l)%nat.
Proof.
  apply submseteq_length, NoDup_submseteq; [apply NoDup_remove_dups|].
  intros x. by rewrite elem_of_remove_dups.
Qed.

Lemma users_mono (P Q : Stream -> bool) (l : list Stream) x :
  (forall s, P s = true -> Q s = true) ->
  x ∈ map stream_user (List.filter P l) -> x ∈ map stream_user (List.filter Q l).
Proof.
  intros H. rewrite !list_elem_of_In, !in_map_iff.
  intros (s & Hs & Hin). exists s. split; [done|].
  apply filter_In in Hin as [Hin HP]. apply filter_In. split; [done|by apply H].
Qed.

Lemma week_in_month t s :
  in_period cal t (Some "week") s = true -> in_period cal t (Some "month") s = true.
Proof.
  unfold in_period. simpl. rewrite !Qle_bool_iff.
  change (inject_Z (7 * 86400)) with 604800%Q.
  change (inject_Z (30 * 86400)) with 2592000%Q. lra.
Qed.

(** X15.  The analytics of a song exist exactly when the catalog has the
    song.  Its unique listeners never exceed its streams.  The streams
    and the unique listeners of the last week never exceed those of the
    last month, which never exceed the all-time ones.  A period other
    than [today], [week] and [month] is not an error: it gives the
    all-time figures, labelled with the period as given. *)
Theorem stream_metrics_are_consistent sid w :
  (get_song_stream_analytics cal streams sid None w = None
   <-> lookup_song sid w = None)
  /\ (forall time_period a,
        get_song_stream_analytics cal streams sid time_period w = Some a ->
        0 <= a_unique_listeners a <= a_total_streams a)
  /\ (forall aw am aa,
        get_song_stream_analytics cal streams sid (Some "week") w = Some aw ->
        get_song_stream_analytics cal streams sid (Some "month") w = Some am ->
        get_song_stream_analytics cal streams sid None w = Some aa ->
        a_total_streams aw <= a_total_streams am <= a_total_streams aa
        /\ a_unique_listeners aw <= a_unique_listeners am <= a_unique_listeners aa)
  /\ (forall p a,
        p <> "" -> p <> "today" -> p <> "week" -> p <> "month" ->
        get_song_stream_analytics cal streams sid None w = Some a ->
        get_song_stream_analytics cal streams sid (Some p) w
        = Some {| a_song_id := a_song_id a; a_song_title := a_song_title a;
                  a_artist := a_artist a;
                  a_total_streams := a_total_streams a;
                  a_unique_listeners := a_unique_listeners a;
                  a_total_duration_listened_seconds :=
                    a_total_duration_listened_seconds a;
                  a_total_duration_listened_formatted :=
                    a_total_duration_listened_formatted a;
                  a_time_period := p |}).
Proof.
  unfold get_song_stream_analytics.
  destruct (lookup_song sid w) as [song|]; [|by repeat split].
  split; [by split|]. split; [|split].
  - intros tp a [= <-]. simpl.
    pose proof (distinct_length_le
                  (map stream_user (streams_of cal streams (song_id song) tp w))) as H.
    rewrite length_map in H. lia.
  - intros aw am aa [= <-] [= <-] [= <-]. simpl. unfold streams_of.
    set (base := List.filter _ streams).
    pose proof (filter_length_mono _ _ base (week_in_month (now w))) as H1.
    pose proof (filter_length_mono (in_period cal (now w) (Some "month"))
                  (in_period cal (now w) None) base (fun _ _ => eq_refl)) as H2.
    pose proof (distinct_length_mono _ _
                  (fun x => users_mono _ _ base x (week_in_month (now w)))) as H3.
    pose proof (distinct_length_mono _ _
                  (fun x => users_mono (in_period cal (now w) (Some "month"))
                              (in_period cal (now w) None) base x
                              (fun _ _ => eq_refl))) as H4.
    lia.
  - intros p a Hp Ht Hw Hm [= <-]. simpl.
    assert (Hper : forall s, in_period cal (now w) (Some p) s
                             = in_period cal (now w) None s).
    { intros s. unfold in_period.
      assert (Htr : str_truthy (Some p) = true) by (by destruct p).
      rewrite Htr. change (default "" (Some p)) with p.
      apply String.eqb_neq in Ht, Hw, Hm. by rewrite Ht, Hw, Hm. }
    unfold streams_of.
    rewrite (filter_ext _ _ Hper).
    by destruct p.
Qed.

Lemma insert_desc_perm x l : insert_desc x l ≡ₚ x :: l.
Proof.
  induction l as [|y l IH]; simpl; [done|].
  destruct (a_total_streams y <=? a_total_streams x); [done|].
  rewrite IH. apply Permutation_swap.
Qed.

Lemma sort_desc_perm l : sort_desc l ≡ₚ l.
Proof.
  induction l as [|x l IH]; simpl; [done|].
  by rewrite insert_desc_perm, IH.
Qed.

Lemma insert_desc_sorted x l :
  Sorted (fun a b => a_total_streams b <= a_total_streams a) l ->
  Sorted (fun a b => a_total_streams b <= a_total_streams a) (insert_desc x l).
Proof.
  induction 1 as [|y l Hs IH Hhd]; simpl; [by repeat constructor|].
  destruct (a_total_streams y <=? a_total_streams x) eqn:E.
  - apply Z.leb_le in E. by repeat constructor.
  - apply Z.leb_gt in E. constructor; [done|].
    destruct l as [|z l]; simpl in *.
    + constructor. lia.
    + destruct (a_total_streams z <=? a_total_streams x);
        constructor; [lia|]. by inversion Hhd.
Qed.

Lemma sort_desc_sorted l :
  Sorted (fun a b => a_total_streams b <= a_total_streams a) (sort_desc l).
Proof.
  induction l as [|x l IH]; simpl; [constructor|]. by apply insert_desc_sorted.
Qed.

Lemma collect_length time_period w :
  length (collect_analytics cal streams time_period w) = length (catalog w).
Proof.
  unfold collect_analytics.
  assert (H : forall song, In song (catalog w) ->
                is_Some (get_song_stream_analytics cal streams (song_id song)
                           time_period w)).
  { intros song Hin. unfold get_song_stream_analytics, lookup_song.
    destruct (find _ (catalog w)) as [s|] eqn:E; [by eexists|].
    exfalso. eapply find_none in E; [|exact Hin]. simpl in E.
    by rewrite Z.eqb_refl in E. }
  induction (catalog w) as [|song c IH]; simpl; [done|].
  destruct (H song (or_introl eq_refl)) as [a ->]. simpl. f_equal.
  apply IH. intros s Hs. apply H. by right.
Qed.

(** X16.  The analytics of all songs hold one entry per song of the
    catalog, the entries the loop collected in some order, sorted by
    decreasing stream count. *)
Theorem all_songs_analytics_sorted time_period w :
  let all := get_all_songs_stream_analytics cal streams time_period w in
  Sorted (fun a b => a_total_streams b <= a_total_streams a) all
  /\ all ≡ₚ collect_analytics cal streams time_period w
  /\ length all = length (catalog w).
Proof.
  unfold get_all_songs_stream_analytics. split; [apply sort_desc_sorted|].
  split; [apply sort_desc_perm|].
  rewrite (Permutation_length (sort_desc_perm _)). apply collect_length.
Qed.

(** X17.  The top songs are a prefix of the sorted analytics, so they are
    sorted too.  A limit that is not negative keeps that many entries, or
    all of them when there are fewer; a negative limit does not fail: it
    drops that many entries from the end. *)
Theorem top_songs_slice limit time_period w :
  let all := get_all_songs_stream_analytics cal streams time_period w in
  let top := get_top_songs cal streams limit time_period w in
  top `prefix_of` all
  /\ Sorted (fun a b => a_total_streams b <= a_total_streams a) top
  /\ (0 <= limit ->
      Z.of_nat (length top) = Z.min limit (Z.of_nat (length all)))
  /\ (limit < 0 ->
      Z.of_nat (length top) = Z.max 0 (Z.of_nat (length all) + limit)).
Proof.
  intros all top. subst top. unfold get_top_songs. fold all.
  assert (Hs : Sorted (fun a b => a_total_streams b <= a_total_streams a) all)
    by apply sort_desc_sorted.
  assert (Hpre : forall n, take n all `prefix_of` all).
  { intros n. exists (drop n all). by rewrite take_drop. }
  assert (Hsorted : forall n,
             Sorted (fun a b => a_total_streams b <= a_total_streams a) (take n all)).
  { intros n. revert Hs. generalize all. induction n as [|n IH]; intros l Hl;
      [constructor|].
    destruct l as [|x l]; [constructor|]. simpl.
    apply Sorted_inv in Hl as [Hl Hhd]. constructor; [by apply IH|].
    destruct n; [constructor|]. destruct l; [constructor|]. simpl.
    constructor. by inversion Hhd. }
  unfold slice_to. destruct (0 <=? limit) eqn:E.
  - apply Z.leb_le in E. split; [apply Hpre|]. split; [apply Hsorted|].
    split; [|lia]. intros _. rewrite length_take. lia.
  - apply Z.leb_gt in E. split; [apply Hpre|]. split; [apply Hsorted|].
    split; [lia|]. intros _. rewrite length_take. lia.
Qed.

(** X18.  The analytics view answers 404 exactly for a non-zero song id
    the catalog does not have; without an id, or with the id 0, it
    answers 200 with the list for all songs, also when the catalog is
    empty. *)
Theorem analytics_view_status sid period w :
  ((song_stream_analytics cal streams sid period w).1 = 404
   <-> sid_truthy sid = true /\ lookup_song (default 0 sid) w = None)
  /\ (sid_truthy sid = false ->
      song_stream_analytics cal streams sid period w
      = (200, Some (AllSongs (get_all_songs_stream_analytics cal streams period w)))).
Proof.
  unfold song_stream_analytics, get_stream_analytics.
  destruct (sid_truthy sid); [|by split; [split; [|intros [? _]]|]].
  unfold get_song_stream_analytics.
  destruct (lookup_song (default 0 sid) w); simpl; split; try done;
    split; try done. by intros [_ ?].
Qed.

End StreamAnalytics.

(** X19.  [format_duration] drops the seconds as soon as there is a full
    minute: from 60 seconds on, a duration prints as the whole minutes it
    contains do.  Below a minute, different durations print differently. *)
Theorem format_duration_drops_seconds seconds :
  (60 <= seconds ->
   format_duration seconds = format_duration (60 * (seconds / 60)))
  /\ (forall other,
        seconds < 60 -> other < 60 ->
        format_duration seconds = format_duration other -> seconds = other).
Proof.
  split.
  - intros H. unfold format_duration.
    assert (H60 : 60 <= 60 * (seconds / 60)) by (Z.to_euclidean_division_equations; lia).
    assert (Hdiv : 60 * (seconds / 60) / 60 = seconds / 60)
      by (Z.to_euclidean_division_equations; lia).
    assert (Hh : 60 * (seconds / 60) / 3600 = seconds / 3600)
      by (Z.to_euclidean_division_equations; lia).
    assert (Hm : (60 * (seconds / 60)) mod 3600 / 60 = seconds mod 3600 / 60)
      by (Z.to_euclidean_division_equations; lia).
    destruct (3600 <=? seconds) eqn:E.
    + apply Z.leb_le in E.
      assert (E' : (3600 <=? 60 * (seconds / 60)) = true)
        by (apply Z.leb_le; Z.to_euclidean_division_equations; lia).
      by rewrite E', Hh, Hm.
    + apply Z.leb_gt in E.
      assert (E' : (3600 <=? 60 * (seconds / 60)) = false)
        by (apply Z.leb_gt; Z.to_euclidean_division_equations; lia).
      rewrite E'.
      assert (E1 : (60 <=? seconds) = true) by (by apply Z.leb_le).
      assert (E2 : (60 <=? 60 * (seconds / 60)) = true) by (by apply Z.leb_le).
      by rewrite E1, E2, Hdiv.
  - intros other H1 H2. unfold format_duration.
    assert (E1 : (3600 <=? seconds) = false) by (apply Z.leb_gt; lia).
    assert (E2 : (60 <=? seconds) = false) by (apply Z.leb_gt; lia).
    assert (E3 : (3600 <=? other) = false) by (apply Z.leb_gt; lia).
    assert (E4 : (60 <=? other) = false) by (apply Z.leb_gt; lia).
    rewrite E1, E2, E3, E4. intros Heq.
    apply (inj pretty).
    assert (Happ : forall a b : string, a +:+ "s" = b +:+ "s" -> a = b).
    { intros a. induction a as [|c a IH]; intros [|c' b]; simpl; try done.
      - intros [= <- Hb]. by destruct b.
      - intros [= -> Ha]. by destruct a.
      - intros [= -> Hab]. f_equal. by apply IH. }
    by apply Happ.
Qed.

Lemma stream_metrics_are_consistent_witness :
  exists a,
    get_song_stream_analytics utc_calendar example_streams 2 None analytics_world
    = Some a
    /\ 0 <= a_unique_listeners a <= a_total_streams a.
Proof.
  eexists.
  assert (H : get_song_stream_analytics utc_calendar example_streams 2 None
                analytics_world
              = Some {| a_song_id := 2; a_song_title := "Song"; a_artist := "Ann";
                        a_total_streams := 2; a_unique_listeners := 2;
                        a_total_duration_listened_seconds := 135;
                        a_total_duration_listened_formatted := format_duration 135;
                        a_time_period := "all_time" |}) by reflexivity.
  split; [exact H|].
  exact (proj1 (proj2 (stream_metrics_are_consistent utc_calendar example_streams
                         2 analytics_world)) None _ H).
Defined.

Lemma top_songs_slice_witness :
  let all := get_all_songs_stream_analytics utc_calendar example_streams None
               analytics_world in
  let top := get_top_songs utc_calendar example_streams (-1) None analytics_world in
  -1 < 0
  /\ Z.of_nat (length top) = Z.max 0 (Z.of_nat (length all) + -1).
Proof.
  intros all top.
  assert (H : -1 < 0) by lia.
  split; [exact H|].
  exact (proj2 (proj2 (proj2 (top_songs_slice utc_calendar example_streams (-1)
                                None analytics_world))) H).
Defined.

Lemma analytics_view_status_witness :
  sid_truthy (Some 0) = false
  /\ song_stream_analytics utc_calendar example_streams (Some 0) None analytics_world
     = (200, Some (AllSongs (get_all_songs_stream_analytics utc_calendar
                               example_streams None analytics_world))).
Proof.
  split; [reflexivity|].
  exact (proj2 (analytics_view_status utc_calendar example_streams (Some 0) None
                  analytics_world) eq_refl).
Defined.

Lemma format_duration_drops_seconds_witness :
  60 <= 3599 /\ format_duration 3599 = format_duration (60 * (3599 / 60)).
Proof.
  assert (H : 60 <= 3599) by lia.
  split; [exact H|].
  exact (proj1 (format_duration_drops_seconds 3599) H).
Defined.

(** ** The setup command *)

Section Setup.

Import PyStr.

Lemma append_assoc (a b c : string) : (a +:+ b) +:+ c = a +:+ (b +:+ c).
Proof.
  induction a as [|x a IH]; [done|].
  change (String x ((a +:+ b) +:+ c) = String x (a +:+ (b +:+ c))).
  by rewrite IH.
Qed.

Lemma append_empty_r (a : string) : a +:+ "" = a.
Proof.
  induction a as [|x a IH]; [done|].
  change (String x (a +:+ "") = String x a). by rewrite IH.
Qed.

Lemma rstrip_cons c s :
  rstrip (String c s)
  = match rstrip s with
    | "" => if isspace c then "" else String c ""
    | r => String c r
    end.
Proof. done. Qed.

Lemma rstrip_app a b :
  rstrip (a +:+ b)
  = match rstrip b with "" => rstrip a | _ => a +:+ rstrip b end.
Proof.
  induction a as [|c a IH].
  - change ("" +:+ b) with b. change ("" +:+ rstrip b) with (rstrip b).
    by destruct (rstrip b).
  - change (String c a +:+ b) with (String c (a +:+ b)).
    rewrite !rstrip_cons, IH.
    destruct (rstrip b) as [|x r] eqn:E; [done|].
    change (String c a +:+ String x r) with (String c (a +:+ String x r)).
    by destruct a.
Qed.

Lemma lstrip_app a b :
  lstrip (a +:+ b)
  = match lstrip a with "" => lstrip b | r => r +:+ b end.
Proof.
  induction a as [|c a IH]; [done|].
  change (String c a +:+ b) with (String c (a +:+ b)).
  cbn [lstrip]. by destruct (isspace c).
Qed.

Lemma rstrip_idem s : rstrip (rstrip s) = rstrip s.
Proof.
  induction s as [|c s IH]; [done|].
  rewrite rstrip_cons.
  destruct (rstrip s) as [|x r] eqn:E.
  - destruct (isspace c) eqn:Ec; [done|]. rewrite rstrip_cons. cbn [rstrip].
    by rewrite Ec.
  - rewrite rstrip_cons, IH. done.
Qed.

Lemma lstrip_rstrip s : lstrip (rstrip s) = rstrip (lstrip s).
Proof.
  induction s as [|c s IH]; [done|].
  rewrite rstrip_cons. cbn [lstrip].
  destruct (isspace c) eqn:Ec.
  - destruct (rstrip s) as [|x r] eqn:E.
    + by rewrite <- IH.
    + cbn [lstrip]. by rewrite Ec.
  - rewrite rstrip_cons.
    destruct (rstrip s) as [|x r]; cbn [lstrip]; by rewrite Ec.
Qed.

Lemma strip_rstrip s : strip (rstrip s) = strip s.
Proof. unfold strip. by rewrite lstrip_rstrip, rstrip_idem. Qed.

Lemma strip_head c s :
  isspace c = false -> exists s', strip (String c s) = String c s'.
Proof.
  intros Hc. unfold strip. cbn [lstrip]. rewrite Hc, rstrip_cons.
  destruct (rstrip s); [rewrite Hc|]; by eexists.
Qed.

Lemma no_linebreak_app a b :
  no_linebreak (a +:+ b) = no_linebreak a && no_linebreak b.
Proof.
  induction a as [|c a IH]; [done|].
  change (String c a +:+ b) with (String c (a +:+ b)).
  cbn [no_linebreak]. by rewrite IH, andb_assoc.
Qed.

Lemma no_linebreak_rstrip s : no_linebreak s = true -> no_linebreak (rstrip s) = true.
Proof.
  induction s as [|c s IH]; [done|]. cbn [no_linebreak].
  intros [Hc Hs]%andb_true_iff. rewrite rstrip_cons.
  destruct (rstrip s) as [|x r].
  - destruct (isspace c); [done|]. cbn [no_linebreak]. by rewrite Hc.
  - change (no_linebreak (String c (String x r)))
      with (negb (islinebreak c) && no_linebreak (String x r)).
    rewrite Hc. by apply IH.
Qed.

Lemma not_cr c : islinebreak c = false -> (code c =? 13)%N = false.
Proof.
  unfold islinebreak. intros H. destruct (code c =? 13)%N eqn:E; [|done].
  apply N.eqb_eq in E. rewrite E in H. done.
Qed.

Lemma splitlines_go_line cur a rest :
  no_linebreak a = true ->
  splitlines_go cur (a +:+ rest) = splitlines_go (cur +:+ a) rest.
Proof.
  revert cur. induction a as [|c a IH]; intros cur.
  - intros _. by rewrite append_empty_r.
  - cbn [no_linebreak]. intros [Hc Ha]%andb_true_iff. apply negb_true_iff in Hc.
    change (String c a +:+ rest) with (String c (a +:+ rest)).
    cbn [splitlines_go].
    rewrite (not_cr _ Hc), Hc, (IH _ Ha), append_assoc. done.
Qed.

Lemma splitlines_two a b :
  no_linebreak a = true -> no_linebreak b = true -> b <> "" ->
  splitlines (a +:+ LF +:+ b) = [a; b].
Proof.
  intros Ha Hb Hne. unfold splitlines.
  rewrite (splitlines_go_line _ _ _ Ha).
  change ("" +:+ a) with a. change (LF +:+ b) with (String "010"%char b).
  cbn [splitlines_go]. 
  change ((code "010" =? 13)%N) with false. change (islinebreak "010") with true.
  cbv iota.
  rewrite <- (append_empty_r b), (splitlines_go_line _ _ _ Hb).
  change ("" +:+ b) with b. cbn [splitlines_go]. rewrite append_empty_r.
  by destruct b.
Qed.

(** X20.  The text the setup command writes for a client id and a client
    secret without line breaks is read back by the credential loader as
    exactly those two credentials, each stripped of surrounding
    whitespace. *)
Theorem setup_text_round_trip client_id client_secret :
  no_linebreak client_id = true -> no_linebreak client_secret = true ->
  _load_spotify_credentials (Content (credentials_text client_id client_secret))
  = Ok (Some (<["client_secret" := strip client_secret]>
                (<["client_id" := strip client_id]> ∅))).
Proof.
  intros Hid Hsec.
  set (r := rstrip (" " +:+ client_secret)).
  assert (Htext : credentials_text client_id client_secret
                  = (("client_id: " +:+ client_id) +:+ LF +:+ "client_secret:")
                      +:+ ((" " +:+ client_secret) +:+ LF)).
  { unfold credentials_text. rewrite !append_assoc. done. }
  assert (Er : rstrip ((" " +:+ client_secret) +:+ LF) = r).
  { by rewrite rstrip_app. }
  assert (Hstrip : strip (credentials_text client_id client_secret)
                   = ("client_id: " +:+ client_id) +:+ LF
                       +:+ ("client_secret:" +:+ r)).
  { unfold strip. rewrite Htext.
    change (lstrip ((("client_id: " +:+ client_id) +:+ LF +:+ "client_secret:")
                      +:+ ((" " +:+ client_secret) +:+ LF)))
      with ((("client_id: " +:+ client_id) +:+ LF +:+ "client_secret:")
              +:+ ((" " +:+ client_secret) +:+ LF)).
    rewrite rstrip_app, Er. destruct r as [|x r'] eqn:Hr.
    - rewrite append_empty_r.
      rewrite <- (append_assoc _ "client_secret" ":"), rstrip_app.
      change (rstrip ":") with ":". cbv iota.
      by rewrite !append_assoc.
    - by rewrite !append_assoc. }
  assert (Hlines : splitlines (strip (credentials_text client_id client_secret))
                   = ["client_id: " +:+ client_id; "client_secret:" +:+ r]).
  { rewrite Hstrip. apply splitlines_two.
    - change (no_linebreak ("client_id: " +:+ client_id))
        with (no_linebreak client_id). exact Hid.
    - change (no_linebreak ("client_secret:" +:+ r)) with (no_linebreak r).
      subst r. apply no_linebreak_rstrip. exact Hsec.
    - done. }
  rewrite load_content. cbv zeta. rewrite Hlines.
  unfold parse_lines. cbn [fold_left].
  assert (Hsk : forall s, is_skipped (String "c" s) = false).
  { intros s. unfold is_skipped.
    destruct (strip_head "c" s eq_refl) as [s' ->]. done. }
  change ("client_id: " +:+ client_id)
    with ("client_id" +:+ ":" +:+ (" " +:+ client_id)).
  rewrite parse_line_colon; [|done|apply Hsk].
  change ("client_secret:" +:+ r) with ("client_secret" +:+ ":" +:+ r).
  rewrite parse_line_colon; [|done|apply Hsk].
  assert (Hv1 : strip (" " +:+ client_id) = strip client_id) by done.
  assert (Hv2 : strip r = strip client_secret).
  { subst r. rewrite strip_rstrip. done. }
  rewrite Hv1, Hv2.
  change (lower (strip "client_id")) with "client_id".
  change (lower (strip "client_secret")) with "client_secret".
  rewrite lookup_insert_ne by done. rewrite !lookup_insert_eq. done.
Qed.

(** X21.  The setup command writes [api/spotify.txt] and no other file;
    the service reads [apis/spotify.txt].  So, when the service's file
    does not exist, the credentials test that ends the command never
    succeeds and sends no request, whatever was typed; and whenever the
    command reports the file written, the file holds the two lines for a
    client id and a client secret that are not empty. *)
Theorem setup_writes_another_file opt_id opt_secret inputs fs w :
  let '(outcome, fs', w') := setup_handle opt_id opt_secret inputs fs w in
  (forall path, path <> setup_path -> fs' !! path = fs !! path)
  /\ fs' !! loader_path = fs !! loader_path
  /\ (fs !! loader_path = None ->
      outcome <> SetupWritten true /\ calls w' = calls w)
  /\ (forall works,
        outcome = SetupWritten works ->
        exists client_id client_secret,
          client_id <> "" /\ client_secret <> ""
          /\ fs' !! setup_path = Some (credentials_text client_id client_secret)).
Proof.
  assert (Hstop : forall o,
             o <> SetupWritten true -> (forall b, o <> SetupWritten b) ->
             let '(outcome, fs', w') := (o, fs, w) in
             (forall path, path <> setup_path -> fs' !! path = fs !! path)
             /\ fs' !! loader_path = fs !! loader_path
             /\ (fs !! loader_path = None ->
                 outcome <> SetupWritten true /\ calls w' = calls w)
             /\ (forall works,
                   outcome = SetupWritten works ->
                   exists client_id client_secret,
                     client_id <> "" /\ client_secret <> ""
                     /\ fs' !! setup_path
                        = Some (credentials_text client_id client_secret))).
  { intros o Ho Hb. repeat split; try done. intros works ->. by destruct (Hb works). }
  unfold setup_handle.
  assert (Hrest : forall inputs1,
    let '(outcome, fs', w') :=
      match option_or_input opt_id inputs1 with
      | None => (SetupEOF, fs, w)
      | Some (client_id, inputs) =>
          match option_or_input opt_secret inputs with
          | None => (SetupEOF, fs, w)
          | Some (client_secret, _) =>
              if is_empty client_id || is_empty client_secret
              then (SetupMissing, fs, w)
              else
                let fs' := <[setup_path := credentials_text client_id client_secret]> fs in
                let '(works, w') := setup_test (with_files fs' w) in
                (SetupWritten works, fs', w')
          end
      end in
    (forall path, path <> setup_path -> fs' !! path = fs !! path)
    /\ fs' !! loader_path = fs !! loader_path
    /\ (fs !! loader_path = None ->
        outcome <> SetupWritten true /\ calls w' = calls w)
    /\ (forall works,
          outcome = SetupWritten works ->
          exists client_id client_secret,
            client_id <> "" /\ client_secret <> ""
            /\ fs' !! setup_path = Some (credentials_text client_id client_secret)));
    [|destruct (fs !! setup_path);
      [destruct inputs as [|overwrite rest];
       [by apply (Hstop SetupEOF)|
        destruct (String.eqb (lower overwrite) "y");
        [apply Hrest|by apply (Hstop SetupAborted)]]
      |apply Hrest]].
  intros inputs1.
  destruct (option_or_input opt_id inputs1) as [[client_id inputs2]|];
    [|by apply (Hstop SetupEOF)].
  destruct (option_or_input opt_secret inputs2) as [[client_secret inputs3]|];
    [|by apply (Hstop SetupEOF)].
  destruct (is_empty client_id) eqn:E1; [by apply (Hstop SetupMissing)|].
  destruct (is_empty client_secret) eqn:E2; [by apply (Hstop SetupMissing)|].
  cbn [orb]. cbv zeta.
  set (fs' := <[setup_path := _]> fs).
  assert (Hload : fs' !! loader_path = fs !! loader_path)
    by (unfold fs'; by rewrite lookup_insert_ne).
  destruct (setup_test (with_files fs' w)) as [works w'] eqn:Htest.
  split; [intros path Hp; unfold fs'; by rewrite lookup_insert_ne|].
  split; [done|]. split.
  - intros Hnone. unfold setup_test, bind in Htest.
    assert (Habs : spotify_txt (with_files fs' w) = Absent).
    { simpl. unfold resource_at. by rewrite Hload, Hnone. }
    destruct (unconfigured_service_is_silent (with_files fs' w))
      as (service & Hinit & Htok & _); [by rewrite Habs|].
    rewrite Hinit, Htok in Htest. injection Htest as <- <-. by split.
  - intros works' _. exists client_id, client_secret.
    split; [by destruct client_id|]. split; [by destruct client_secret|].
    unfold fs'. by rewrite lookup_insert_eq.
Qed.

End Setup.

Lemma setup_text_round_trip_witness :
  no_linebreak "abc" = true /\ no_linebreak " x y " = true
  /\ _load_spotify_credentials (Content (credentials_text "abc" " x y "))
     = Ok (Some (<["client_secret" := "x y"]> (<["client_id" := "abc"]> ∅))).
Proof.
  split; [reflexivity|]. split; [reflexivity|].
  exact (setup_text_round_trip "abc" " x y " eq_refl eq_refl).
Defined.

Lemma setup_writes_another_file_witness :
  let r := setup_handle (Some "abc") (Some "xyz") [] ∅
             (example_world [] (example_net NetError)) in
  (∅ : gmap string string) !! loader_path = None
  /\ r.1.1 = SetupWritten false
  /\ r.1.2 !! loader_path = None
  /\ calls r.2 = [].
Proof.
  intros r.
  pose proof (setup_writes_another_file (Some "abc") (Some "xyz") [] ∅
                (example_world [] (example_net NetError))) as H.
  fold r in H. destruct r as [[outcome fs'] w'] eqn:Hr.
  destruct H as (_ & H2 & H3 & _).
  assert (Ho : outcome = SetupWritten false).
  { assert (E : r.1.1 = SetupWritten false) by (subst r; vm_compute; reflexivity).
    by rewrite Hr in E. }
  split; [reflexivity|]. split; [exact Ho|]. split; [exact H2|].
  exact (proj2 (H3 eq_refl)).
Defined.

(** ** The older search helper and the album and artist searches *)

Section OtherSearches.

Lemma item_missing d k : Py.assoc k d = None -> Py.item (JDict d) k = Raise KeyError.
Proof. intros H. simpl. by rewrite H. Qed.

Lemma song_data_of_raises d :
  Py.assoc "id" d = None \/ Py.assoc "external_urls" d = None
  \/ Py.assoc "popularity" d = None \/ Py.assoc "album" d = None ->
  exists e, song_data_of (JDict d) = Raise e /\ (e = KeyError \/ e = TypeError).
Proof.
  assert (Hitem : forall v k, (exists x, Py.item v k = Ok x)
                              \/ Py.item v k = Raise KeyError
                              \/ Py.item v k = Raise TypeError).
  { intros v k. destruct v; simpl; auto. destruct (Py.assoc k d0); eauto. }
  intros H. unfold song_data_of.
  destruct (Py.assoc "id" d) as [i|] eqn:Ei;
    [|rewrite (item_missing _ _ Ei); simpl; eauto].
  cbn [Py.item Py.get res_bind]. rewrite Ei. cbn [res_bind].
  destruct (Py.assoc "external_urls" d) as [u|] eqn:Eu; [|simpl; eauto].
  cbn [res_bind].
  destruct (Hitem u "spotify") as [[x ->]|[-> | ->]]; [|simpl; eauto..].
  cbn [res_bind].
  destruct (Py.assoc "popularity" d) as [p|] eqn:Ep; [|simpl; eauto].
  cbn [res_bind].
  destruct (Py.assoc "album" d) as [a|] eqn:Ea; [|simpl; eauto].
  destruct H as [H|[H|[H|H]]]; discriminate H.
Qed.

(** X22.  [get_spotify_song_data] is not defensive.  Without an API key
    it returns [None] and sends nothing; a transport error or a status
    from 400 to 599 gives [None]; but a found track that lacks [id],
    [external_urls], [popularity] or [album] makes it raise [KeyError] or
    [TypeError] to its caller, where the service's track search returns a
    defaulted structure. *)
Theorem song_data_helper_raises json_error song_title artist_name api_key w :
  let req := SearchGet api_key
               ("track:" +:+ song_title +:+ " artist:" +:+ artist_name) in
  (Py.truthy api_key = false ->
   get_spotify_song_data json_error song_title artist_name api_key w
   = (Ok None, w))
  /\ (Py.truthy api_key = true ->
      (net w (calls w) req = NetTimeout \/ net w (calls w) req = NetError
       \/ exists st b, net w (calls w) req = Response st b /\ 400 <= st < 600) ->
      get_spotify_song_data json_error song_title artist_name api_key w
      = (Ok None, set_calls (calls w ++ [req]) w))
  /\ (forall st d others,
        Py.truthy api_key = true ->
        net w (calls w) req = Response st (Some (tracks_body d others)) ->
        st < 400 \/ 600 <= st ->
        Py.assoc "id" d = None \/ Py.assoc "external_urls" d = None
        \/ Py.assoc "popularity" d = None \/ Py.assoc "album" d = None ->
        exists e,
          (get_spotify_song_data json_error song_title artist_name api_key w).1
          = Raise e
          /\ (e = KeyError \/ e = TypeError)).
Proof.
  intros req. unfold get_spotify_song_data. split; [by intros ->|]. split.
  - intros -> Hnet. simpl.
    unfold except_request_exception, bind, send, lift, ret. fold req.
    destruct Hnet as [-> | [-> | (st & b & -> & Hst)]]; [done..|].
    unfold raise_for_status.
    assert (E : (400 <=? st) && (st <? 600) = true).
    { apply andb_true_iff. split; [apply Z.leb_le|apply Z.ltb_lt]; lia. }
    by rewrite E.
  - intros st d others -> Hnet Hst Hd. simpl.
    destruct (song_data_of_raises d Hd) as (e & He & Hcase).
    exists e. split; [|done].
    unfold except_request_exception, bind, send, lift, ret. fold req.
    rewrite Hnet. unfold raise_for_status.
    assert (E : (400 <=? st) && (st <? 600) = false).
    { apply andb_false_iff. destruct Hst; [left; apply Z.leb_gt|right; apply Z.ltb_ge];
        lia. }
    rewrite E. unfold tracks_body. cbn -[song_data_of]. rewrite He.
    by destruct Hcase as [-> | ->].
Qed.

Lemma get_dict d k dflt : Py.get (JDict d) k dflt = Ok (field_or d k dflt).
Proof. unfold field_or. simpl. by destruct (Py.assoc k d). Qed.

Lemma artist_names_skip l :
  artist_names l
  = Ok (omap (fun a => match a with
                       | JDict d => Some (field_or d "name" (JStr ""))
                       | _ => None
                       end) l).
Proof.
  induction l as [|a l IH]; [done|]. simpl artist_names.
  destruct a; simpl; rewrite IH; done.
Qed.

Lemma first_track_body d others :
  first_track (tracks_body d others)
  = match extract_track_info (JDict d) with
    | Ok info => Ok (Some info)
    | Raise _ => Ok None
    end.
Proof.
  unfold first_track, tracks_body. cbn -[extract_track_info].
  by destruct (extract_track_info (JDict d)).
Qed.

(** X23.  The track search reads the artists of the found track
    defensively but not independently of the rest: entries of the list
    that are not dicts are skipped and a dict without a name counts as
    the empty name, while an [artists] value that cannot be iterated
    (null, a number, a bool) makes the search report the whole track as
    not found. *)
Theorem track_artists_edge self song w tok d others :
  (_get_spotify_access_token self w).1 = Ok tok ->
  Py.truthy tok = true ->
  net w (calls (_get_spotify_access_token self w).2)
      (SearchGet tok (search_query song))
  = Response 200 (Some (tracks_body d others)) ->
  (forall e,
      Py.iter (field_or d "artists" (JList [])) = Raise e ->
      (_get_spotify_track_info self song w).1 = Ok None)
  /\ (forall l,
        Py.iter (field_or d "artists" (JList [])) = Ok l ->
        exists info,
          (_get_spotify_track_info self song w).1 = Ok (Some info)
          /\ ti_artists info
             = omap (fun a => match a with
                              | JDict ad => Some (field_or ad "name" (JStr ""))
                              | _ => None
                              end) l).
Proof.
  intros Htok Htruthy Hnet.
  assert (Hrun : (_get_spotify_track_info self song w).1
                 = match extract_track_info (JDict d) with
                   | Ok info => Ok (Some info)
                   | Raise _ => Ok None
                   end).
  { pose proof (keeps_access_token self w) as (_&_&_&Hn&_).
    unfold _get_spotify_track_info, bind, try_except, send.
    destruct (_get_spotify_access_token self w) as [r w1]; simpl in *.
    subst r. rewrite Htruthy. simpl. rewrite Hn, Hnet.
    replace (200 =? 200) with true by done.
    cbn [response_json]. unfold lift. rewrite first_track_body.
    by destruct (extract_track_info (JDict d)). }
  rewrite Hrun.
  destruct (extract_track_info (JDict d)) as [info|e0] eqn:E.
  - destruct (extract_track_info_fields d info E) as (_ & _ & (l' & Hl' & Hn) & _).
    split; [intros e He; congruence|].
    intros l Hl. exists info. split; [done|].
    rewrite Hl in Hl'. injection Hl' as <-.
    rewrite artist_names_skip in Hn. by injection Hn as <-.
  - split; [done|]. intros l Hl. exfalso. revert E.
    unfold extract_track_info. rewrite !get_dict. cbn [res_bind].
    rewrite Hl. cbn [res_bind]. rewrite artist_names_skip. cbn [res_bind].
    unfold field_or.
    destruct (Py.assoc "album" d) as [[| | | | | |a]|]; cbn; try done.
Qed.

Lemma total_search_first {A} kind q (extract : json -> res A) :
  total (search_first kind q extract).
Proof.
  unfold search_first.
  apply total_bind; [intros w; destruct (init_total w) as (s & -> & _); by eexists|].
  intros service. apply total_bind; [apply total_access_token|intros tok].
  destruct (negb _); [apply total_ret|].
  apply total_try. intros _. apply total_ret.
Qed.

Lemma sends_search_first {A} kind q (extract : json -> res A) :
  sends 2 (search_first kind q extract).
Proof.
  unfold search_first.
  apply (sends_bind 0 2); [apply sends_init|intros service|lia].
  apply (sends_bind 1 1); [apply sends_access_token|intros tok|lia].
  destruct (negb _); [apply sends_ret|].
  apply (sends_try 1 0); [|intros; apply sends_ret|lia].
  apply (sends_bind 1 0); [by apply sends_send|intros [st b]|lia].
  destruct (st =? 200); [|apply sends_ret].
  destruct (response_json b); [apply sends_lift|apply sends_ret].
Qed.


Lemma nested_get_dict d k k2 :
  nested_get (JDict d) k k2
  = Ok (match Py.assoc k d with
        | Some (JDict u) => field_or u k2 JNull
        | _ => JNull
        end).
Proof.
  unfold nested_get, field_or. simpl.
  destruct (Py.assoc k d) as [[| | | | | |u]|]; simpl; try done.
Qed.


(** X25.  The artist search never raises and sends at most two requests.
    Once it has a token and the search is answered 200 with a body whose
    first artist is a dict, it always returns a structure, whatever the
    dict holds: each field is the value found or its default, and the
    follower count and the external URL are read only from values that
    are dicts. *)
Theorem artist_search_defensive artist_name w :
  (exists found, (_get_spotify_artist_data artist_name w).1 = Ok found)
  /\ sends 2 (_get_spotify_artist_data artist_name)
  /\ (forall service tok d others,
        LyricsService_init w = (Ok service, w) ->
        (_get_spotify_access_token service w).1 = Ok tok ->
        Py.truthy tok = true ->
        net w (calls (_get_spotify_access_token service w).2)
            (SearchGet tok ("artist:" +:+ artist_name))
        = Response 200 (Some (items_body "artists" d others)) ->
        (_get_spotify_artist_data artist_name w).1 = Ok (Some (artist_data_of d))).
Proof.
  split; [apply total_search_first|]. split; [apply sends_search_first|].
  intros service tok d others Hinit Htok Htruthy Hnet.
  pose proof (keeps_access_token service w) as (_&_&_&Hn&_).
  unfold _get_spotify_artist_data, search_first, bind, try_except, send.
  rewrite Hinit.
  destruct (_get_spotify_access_token service w) as [r w1]; simpl in *.
  subst r. rewrite Htruthy. simpl. rewrite Hn, Hnet.
  replace (200 =? 200) with true by done. cbn [response_json]. unfold lift.
  assert (E : first_item "artists" extract_artist_data (items_body "artists" d others)
              = Ok (Some (artist_data_of d))).
  { unfold first_item, items_body. cbn -[extract_artist_data].
    unfold extract_artist_data. rewrite !get_dict, !nested_get_dict. done. }
  by rewrite E.
Qed.

End OtherSearches.

Lemma song_data_helper_raises_witness :
  let w := example_world [] (example_net NetError) in
  Py.truthy JNull = false
  /\ get_spotify_song_data ValueError "Song" "Ann" JNull w = (Ok None, w).
Proof.
  intros w. split; [reflexivity|].
  exact (proj1 (song_data_helper_raises ValueError "Song" "Ann" JNull w) eq_refl).
Defined.

Lemma track_artists_edge_witness :
  let song := example_song 1 None None in
  (_get_spotify_access_token example_service null_artists_world).1
  = Ok (JStr "tok")
  /\ Py.truthy (JStr "tok") = true
  /\ Py.iter (field_or [("id", JStr "t1"); ("artists", JNull)] "artists" (JList []))
     = Raise TypeError
  /\ (_get_spotify_track_info example_service song null_artists_world).1 = Ok None.
Proof.
  intros song.
  assert (H1 : (_get_spotify_access_token example_service null_artists_world).1
               = Ok (JStr "tok")) by (vm_compute; reflexivity).
  split; [exact H1|]. split; [reflexivity|]. split; [reflexivity|].
  exact (proj1 (track_artists_edge example_service song null_artists_world
                  (JStr "tok") [("id", JStr "t1"); ("artists", JNull)] []
                  H1 eq_refl eq_refl)
           TypeError eq_refl).
Defined.


Lemma artist_search_defensive_witness :
  let d := [("id", JStr "r1"); ("followers", JDict [("total", JInt 5)])] in
  LyricsService_init artist_world = (Ok example_service, artist_world)
  /\ (_get_spotify_access_token example_service artist_world).1 = Ok (JStr "tok")
  /\ Py.truthy (JStr "tok") = true
  /\ (_get_spotify_artist_data "Ann" artist_world).1 = Ok (Some (artist_data_of d)).
Proof.
  intros d.
  assert (H1 : LyricsService_init artist_world = (Ok example_service, artist_world))
    by (vm_compute; reflexivity).
  assert (H2 : (_get_spotify_access_token example_service artist_world).1
               = Ok (JStr "tok")) by (vm_compute; reflexivity).
  split; [exact H1|]. split; [exact H2|]. split; [reflexivity|].
  exact (proj2 (proj2 (artist_search_defensive "Ann" artist_world))
           example_service (JStr "tok") d [] H1 H2 eq_refl eq_refl).
Defined.
